(** * CusparseLtKernels: the cuSPARSELt binding of ATen, as a shallow embedding

    Source: [aten/src/ATen/native/cuda/CusparseLtKernels.cpp].

    The file is a binding: a custom class [CusparseLt] whose constructor and
    three registered methods ([compress], [cusparselt_mm], [cusparselt_addmm])
    marshal tensors into calls of the CUDA runtime and of the closed
    cuSPARSELt library.  The embedding keeps the class as a record, the
    methods as programs of a state-and-exception monad, and the vendor
    library as an oracle: a function from the history of calls and the
    current call to the reply (status code and out-parameters).  Every call
    is logged with its arguments, so that statements about "what is passed to
    the vendor" are statements about the log. *)

From Stdlib Require Import ZArith List Bool QArith Lia.
Import ListNotations.
Local Open Scope Z_scope.

(** ** Framework types (c10 / ATen) *)

(** The scalar types of c10 that matter here; [kInt8] and [bFloat16] are the
    two names the constructor compares against. *)
Inductive ScalarType : Type :=
| kUInt8 | kInt8 | kInt16 | kInt32 | kInt64
| kFloat16 | kFloat32 | kFloat64 | bFloat16 | kBool.

Definition ScalarType_eqb (a b : ScalarType) : bool :=
  match a, b with
  | kUInt8, kUInt8 | kInt8, kInt8 | kInt16, kInt16 | kInt32, kInt32
  | kInt64, kInt64 | kFloat16, kFloat16 | kFloat32, kFloat32
  | kFloat64, kFloat64 | bFloat16, bFloat16 | kBool, kBool => true
  | _, _ => false
  end.

Inductive Device : Type :=
| CPU
| CUDA (index : Z).

(** A tensor handle: shape, strides, dtype, device and the address of its
    data.  Copying an [at::Tensor] copies the handle, not the storage, so the
    copy has the same [data_ptr]. *)
Record Tensor : Type := mkTensor {
  sizes : list Z;
  strides : list Z;
  dtype : ScalarType;
  device : Device;
  data_ptr : Z
}.

Definition nullptr : Z := 0.

(** ** Vendor types (CUDA runtime, cuSPARSE, cuSPARSELt) *)

Inductive cudaDataType : Type := CUDA_R_16F | CUDA_R_8I | CUDA_R_B16F.

Inductive cusparseComputeType : Type :=
| CUSPARSE_COMPUTE_16F
| CUSPARSE_COMPUTE_32I.

Inductive cusparseOperation_t : Type :=
| CUSPARSE_OPERATION_NON_TRANSPOSE
| CUSPARSE_OPERATION_TRANSPOSE.

Inductive cusparseOrder_t : Type := CUSPARSE_ORDER_COL | CUSPARSE_ORDER_ROW.

Definition cusparseOrder_eqb (a b : cusparseOrder_t) : bool :=
  match a, b with
  | CUSPARSE_ORDER_COL, CUSPARSE_ORDER_COL
  | CUSPARSE_ORDER_ROW, CUSPARSE_ORDER_ROW => true
  | _, _ => false
  end.

Inductive cusparseLtSparsity_t : Type := CUSPARSELT_SPARSITY_50_PERCENT.

Inductive cusparseLtPruneAlg_t : Type :=
| CUSPARSELT_PRUNE_SPMMA_TILE
| CUSPARSELT_PRUNE_SPMMA_STRIP.

Inductive cusparseLtMatmulAlg_t : Type := CUSPARSELT_MATMUL_ALG_DEFAULT.

Inductive cusparseLtMatmulDescAttribute_t : Type :=
| CUSPARSELT_MATMUL_BIAS_POINTER
| CUSPARSELT_MATMUL_BIAS_STRIDE.

Inductive cusparseLtMatmulAlgAttribute_t : Type :=
| CUSPARSELT_MATMUL_ALG_CONFIG_ID.

Inductive cudaDeviceAttr : Type :=
| cudaDevAttrComputeCapabilityMajor
| cudaDevAttrComputeCapabilityMinor.

Definition cudaSuccess : Z := 0.
Definition CUSPARSE_STATUS_SUCCESS : Z := 0.

(** [cusparseLtHandle_t] is opaque; what the binding can know about it is
    whether [cusparseLtInit] has filled it in. *)
Inductive cusparseLtHandle_t : Type :=
| HandleUninitialized
| HandleInitialized.

(** [cusparseLtMatDescriptor_t] is opaque too; the embedding records the
    values the descriptor was initialised with ([sparsity] is [None] for a
    dense descriptor). *)
Record cusparseLtMatDescriptor_t : Type := mkMatDescriptor {
  desc_rows : Z;
  desc_cols : Z;
  desc_ld : Z;
  desc_alignment : Z;
  desc_type : cudaDataType;
  desc_order : cusparseOrder_t;
  desc_sparsity : option cusparseLtSparsity_t
}.

(** The two dense descriptor members a [cusparseLtDenseDescriptorInit] or a
    [cusparseLtMatDescriptorDestroy] can be pointed at. *)
Inductive DenseSlot : Type := DenseInputSlot | ResSlot.

(** One constructor per entry point, with the arguments in the order of the
    C signature.  Pointers to the opaque members are passed as the member's
    current contents; the locals [matmul], [plan] and [alg_sel], which only
    the vendor reads, are left out.  [cusparseLtSpMMAPrune2] and
    [cusparseLtSpMMAPruneCheck2] are part of the vendor interface although
    the binding has them commented out. *)
Inductive Call : Type :=
| cudaDeviceGetAttribute (attr : cudaDeviceAttr) (dev : Z)
| cudaMalloc (size : Z)
| cusparseLtInit (h : cusparseLtHandle_t)
| cusparseLtStructuredDescriptorInit
    (h : cusparseLtHandle_t) (rows cols ld : Z) (alignment : Z)
    (valueType : cudaDataType) (order : cusparseOrder_t)
    (sparsity : cusparseLtSparsity_t)
| cusparseLtDenseDescriptorInit
    (h : cusparseLtHandle_t) (slot : DenseSlot) (rows cols ld : Z)
    (alignment : Z) (valueType : cudaDataType) (order : cusparseOrder_t)
| cusparseLtSpMMAPrune2
    (h : cusparseLtHandle_t) (desc : option cusparseLtMatDescriptor_t)
    (isSparseA : bool) (op : cusparseOperation_t) (d_in d_out : Z)
    (alg : cusparseLtPruneAlg_t) (stream : Z)
| cusparseLtSpMMAPruneCheck2
    (h : cusparseLtHandle_t) (desc : option cusparseLtMatDescriptor_t)
    (isSparseA : bool) (op : cusparseOperation_t) (d_in d_valid : Z)
    (stream : Z)
| cusparseLtSpMMACompressedSize2
    (h : cusparseLtHandle_t) (desc : option cusparseLtMatDescriptor_t)
| cusparseLtSpMMACompress2
    (h : cusparseLtHandle_t) (desc : option cusparseLtMatDescriptor_t)
    (isSparseA : bool) (op : cusparseOperation_t)
    (d_dense d_compressed d_compressed_buffer : Z) (stream : Z)
| cusparseLtMatmulDescriptorInit
    (h : cusparseLtHandle_t) (opA opB : cusparseOperation_t)
    (matA matB matC matD : option cusparseLtMatDescriptor_t)
    (computeType : cusparseComputeType)
| cusparseLtMatmulDescSetAttribute
    (h : cusparseLtHandle_t) (attr : cusparseLtMatmulDescAttribute_t)
    (value : Z)
| cusparseLtMatmulAlgSelectionInit
    (h : cusparseLtHandle_t) (alg : cusparseLtMatmulAlg_t)
| cusparseLtMatmulPlanInit (h : cusparseLtHandle_t)
| cusparseLtMatmulGetWorkspace (h : cusparseLtHandle_t)
| cusparseLtMatmulSearch
    (h : cusparseLtHandle_t) (alpha : Q) (d_A d_B : Z) (beta : Q)
    (d_C d_D : Z) (workspace : Z) (streams : Z) (numStreams : Z)
| cusparseLtMatmulAlgGetAttribute
    (h : cusparseLtHandle_t) (attr : cusparseLtMatmulAlgAttribute_t)
| cusparseLtMatmulAlgSetAttribute
    (h : cusparseLtHandle_t) (attr : cusparseLtMatmulAlgAttribute_t)
    (value : Z)
| cusparseLtMatmul
    (h : cusparseLtHandle_t) (alpha : Q) (d_A d_B : Z) (beta : Q)
    (d_C d_D : Z) (workspace : Z) (streams : Z) (numStreams : Z)
| cusparseLtMatDescriptorDestroy (slot : DenseSlot)
| cusparseLtMatmulPlanDestroy.

(** What a call gives back: its status code and the values it stored through
    its out-parameters (at most two: [cusparseLtSpMMACompressedSize2] has
    two, the attribute queries, [cudaMalloc] and
    [cusparseLtMatmulGetWorkspace] one). *)
Record Reply : Type := mkReply {
  status : Z;
  out1 : Z;
  out2 : Z
}.

Definition Event : Type := (Call * Reply)%type.

(** The vendor side: given the calls made so far and the call made now, the
    reply.  Nothing is assumed about it. *)
Definition Vendor : Type := list Event -> Call -> Reply.

(** ** The class *)

(** [constexpr static auto order{CUSPARSE_ORDER_ROW}] *)
Definition order : cusparseOrder_t := CUSPARSE_ORDER_ROW.

(** The data members, in the order of the struct.  [alpha] and [beta] are C
    floats; the only values they ever hold, 1.0 and 0.0, are exact, so
    rationals represent them. *)
Record CusparseLt : Type := mkCusparseLt {
  sparse_compressed : Tensor;
  handle : cusparseLtHandle_t;
  sparse_input_descriptor : option cusparseLtMatDescriptor_t;
  dense_input_descriptor : option cusparseLtMatDescriptor_t;
  res_descriptor : option cusparseLtMatDescriptor_t;
  alignment : Z;
  alpha : Q;
  beta : Q;
  num_streams : Z;
  stream : Z;
  streams : Z;
  d_workspace : Z;
  alg_id : Z;
  num_A_rows : Z;
  pruning_algo : cusparseLtPruneAlg_t;
  opA : cusparseOperation_t;
  type : cudaDataType;
  compute_type : cusparseComputeType
}.

(** [num_A_rows] and [opA] have no initialiser: a new object holds whatever
    the memory held. *)
Record Indeterminate : Type := mkIndeterminate {
  garbage_num_A_rows : Z;
  garbage_opA : cusparseOperation_t
}.

(** The member initialisers of the struct together with the constructor's
    initialiser list [sparse_compressed{sparse_compressed}]. *)
Definition member_init (mem : Indeterminate) (t : Tensor) : CusparseLt :=
  {| sparse_compressed := t;
     handle := HandleUninitialized;
     sparse_input_descriptor := None;
     dense_input_descriptor := None;
     res_descriptor := None;
     alignment := 16;
     alpha := 1%Q;
     beta := 0%Q;
     num_streams := 0;
     stream := nullptr;
     streams := nullptr;
     d_workspace := nullptr;
     alg_id := 7777;
     num_A_rows := garbage_num_A_rows mem;
     pruning_algo := CUSPARSELT_PRUNE_SPMMA_STRIP;
     opA := garbage_opA mem;
     type := CUDA_R_16F;
     compute_type := CUSPARSE_COMPUTE_16F |}.

(** Assignments to a member.  Rocq has no record update, so each one
    rebuilds the record. *)

Definition set_handle (v : cusparseLtHandle_t)
  (this : CusparseLt) : CusparseLt :=
  mkCusparseLt (sparse_compressed this) (v) (sparse_input_descriptor this)
    (dense_input_descriptor this) (res_descriptor this) (alignment this)
    (alpha this) (beta this) (num_streams this) (stream this) (streams this)
    (d_workspace this) (alg_id this) (num_A_rows this) (pruning_algo this)
    (opA this) (type this) (compute_type this).

Definition set_sparse_input_descriptor (v : option cusparseLtMatDescriptor_t)
  (this : CusparseLt) : CusparseLt :=
  mkCusparseLt (sparse_compressed this) (handle this) (v)
    (dense_input_descriptor this) (res_descriptor this) (alignment this)
    (alpha this) (beta this) (num_streams this) (stream this) (streams this)
    (d_workspace this) (alg_id this) (num_A_rows this) (pruning_algo this)
    (opA this) (type this) (compute_type this).

Definition set_dense_input_descriptor (v : option cusparseLtMatDescriptor_t)
  (this : CusparseLt) : CusparseLt :=
  mkCusparseLt (sparse_compressed this) (handle this)
    (sparse_input_descriptor this) (v) (res_descriptor this) (alignment
    this) (alpha this) (beta this) (num_streams this) (stream this) (streams
    this) (d_workspace this) (alg_id this) (num_A_rows this) (pruning_algo
    this) (opA this) (type this) (compute_type this).

Definition set_res_descriptor (v : option cusparseLtMatDescriptor_t)
  (this : CusparseLt) : CusparseLt :=
  mkCusparseLt (sparse_compressed this) (handle this)
    (sparse_input_descriptor this) (dense_input_descriptor this) (v)
    (alignment this) (alpha this) (beta this) (num_streams this) (stream
    this) (streams this) (d_workspace this) (alg_id this) (num_A_rows this)
    (pruning_algo this) (opA this) (type this) (compute_type this).

Definition set_d_workspace (v : Z)
  (this : CusparseLt) : CusparseLt :=
  mkCusparseLt (sparse_compressed this) (handle this)
    (sparse_input_descriptor this) (dense_input_descriptor this)
    (res_descriptor this) (alignment this) (alpha this) (beta this)
    (num_streams this) (stream this) (streams this) (v) (alg_id this)
    (num_A_rows this) (pruning_algo this) (opA this) (type this)
    (compute_type this).

Definition set_alg_id (v : Z)
  (this : CusparseLt) : CusparseLt :=
  mkCusparseLt (sparse_compressed this) (handle this)
    (sparse_input_descriptor this) (dense_input_descriptor this)
    (res_descriptor this) (alignment this) (alpha this) (beta this)
    (num_streams this) (stream this) (streams this) (d_workspace this) (v)
    (num_A_rows this) (pruning_algo this) (opA this) (type this)
    (compute_type this).

Definition set_num_A_rows (v : Z)
  (this : CusparseLt) : CusparseLt :=
  mkCusparseLt (sparse_compressed this) (handle this)
    (sparse_input_descriptor this) (dense_input_descriptor this)
    (res_descriptor this) (alignment this) (alpha this) (beta this)
    (num_streams this) (stream this) (streams this) (d_workspace this)
    (alg_id this) (v) (pruning_algo this) (opA this) (type this)
    (compute_type this).

Definition set_opA (v : cusparseOperation_t)
  (this : CusparseLt) : CusparseLt :=
  mkCusparseLt (sparse_compressed this) (handle this)
    (sparse_input_descriptor this) (dense_input_descriptor this)
    (res_descriptor this) (alignment this) (alpha this) (beta this)
    (num_streams this) (stream this) (streams this) (d_workspace this)
    (alg_id this) (num_A_rows this) (pruning_algo this) (v) (type this)
    (compute_type this).

Definition set_type (v : cudaDataType)
  (this : CusparseLt) : CusparseLt :=
  mkCusparseLt (sparse_compressed this) (handle this)
    (sparse_input_descriptor this) (dense_input_descriptor this)
    (res_descriptor this) (alignment this) (alpha this) (beta this)
    (num_streams this) (stream this) (streams this) (d_workspace this)
    (alg_id this) (num_A_rows this) (pruning_algo this) (opA this) (v)
    (compute_type this).

Definition set_compute_type (v : cusparseComputeType)
  (this : CusparseLt) : CusparseLt :=
  mkCusparseLt (sparse_compressed this) (handle this)
    (sparse_input_descriptor this) (dense_input_descriptor this)
    (res_descriptor this) (alignment this) (alpha this) (beta this)
    (num_streams this) (stream this) (streams this) (d_workspace this)
    (alg_id this) (num_A_rows this) (pruning_algo this) (opA this) (type
    this) (v).

(** ** The world outside the object *)

(** The log of vendor calls, oldest first; what [std::printf] was given (the
    two numbers of the constructor's only message); and the next address the
    tensor allocator hands out. *)
Record World : Type := mkWorld {
  calls : list Event;
  printed : list (Z * Z);
  next_alloc : Z
}.

Record State : Type := mkState {
  self : CusparseLt;
  world : World
}.

(** ** Exceptions and the monad of the methods *)

(** [TORCH_CHECK] and the tensor accessors throw [c10::Error]; the
    constructors below tell the throwing sites apart.  The message text and
    [__LINE__] are not modelled. *)
Inductive error : Type :=
| CudaApiFailed (st : Z)
| CusparseApiFailed (st : Z)
| DimensionOutOfRange (dim : nat)
| NegativeDimension (d : Z).

Inductive result (A : Type) : Type :=
| Ok (a : A)
| Raise (e : error).
Arguments Ok {A} a.
Arguments Raise {A} e.

(** A method body: it transforms the object and the world and either
    returns or throws.  What was done before a throw stays done. *)
Definition M (A : Type) : Type := State -> result A * State.

Definition ret {A} (a : A) : M A := fun st => (Ok a, st).

Definition raise {A} (e : error) : M A := fun st => (Raise e, st).

Definition bind {A B} (m : M A) (k : A -> M B) : M B :=
  fun st =>
    match m st with
    | (Ok a, st') => k a st'
    | (Raise e, st') => (Raise e, st')
    end.

Declare Scope method_scope.
Delimit Scope method_scope with method.
Notation "x <- m ;; k" := (bind m (fun x => k))
  (at level 61, m at next level, right associativity) : method_scope.
Notation "m ;; k" := (bind m (fun _ => k))
  (at level 61, right associativity) : method_scope.
Local Open Scope method_scope.

Definition get_this : M CusparseLt := fun st => (Ok (self st), st).

Definition assign (f : CusparseLt -> CusparseLt) : M unit :=
  fun st => (Ok tt, mkState (f (self st)) (world st)).

Definition log_call (c : Call) (r : Reply) (w : World) : World :=
  mkWorld (calls w ++ [(c, r)]) (printed w) (next_alloc w).

Definition printf (major minor : Z) : M unit :=
  fun st =>
    (Ok tt,
     mkState (self st)
       (mkWorld (calls (world st)) (printed (world st) ++ [(major, minor)])
          (next_alloc (world st)))).

(** [TORCH_CHECK(cond, ...)] *)
Definition TORCH_CHECK (cond : bool) (e : error) : M unit :=
  if cond then ret tt else raise e.

(** ** Tensor operations the binding uses *)

(** Modelled from the spec: [at::Tensor::size] is ATen code outside this
    file.  [size(d)] returns the extent of dimension [d] and throws when the
    tensor has no such dimension (only [d] = 0 and 1 are asked for here). *)
Definition size (t : Tensor) (d : nat) : M Z :=
  match nth_error (sizes t) d with
  | Some s => ret s
  | None => raise (DimensionOutOfRange d)
  end.

Definition numel (shape : list Z) : Z := fold_right Z.mul 1 shape.

(** The row-major test, innermost dimension first: [expected] is the stride
    a dimension must have, the product of the sizes inside it. *)
Fixpoint contiguous_from (dims : list (Z * Z)) (expected : Z) : bool :=
  match dims with
  | [] => true
  | (sz, st) :: outer =>
      if sz =? 1 then contiguous_from outer expected
      else if st =? expected then contiguous_from outer (expected * sz)
      else false
  end.

(** Modelled from the spec: [at::Tensor::is_contiguous] is ATen code outside
    this file.  The spec only says that the binding translates strides; the
    model is the row-major test: a tensor is contiguous when it has no
    elements or when, from the innermost dimension outwards and skipping
    dimensions of size 1, each stride is the product of the sizes inside
    it. *)
Definition is_contiguous (t : Tensor) : bool :=
  (numel (sizes t) =? 0)
  || contiguous_from (rev (combine (sizes t) (strides t))) 1.

(** The strides of a freshly allocated tensor of a given shape. *)
Fixpoint contiguous_strides (shape : list Z) : list Z :=
  match shape with
  | [] => []
  | _ :: inner => numel (map (Z.max 1) inner) :: contiguous_strides inner
  end.

(** Modelled from the spec: [at::Tensor::new_empty] is ATen code outside
    this file.  The spec has the binding "return a result tensor"; the model
    is an allocation: it throws on a negative size and otherwise returns a
    row-major tensor of the requested shape, with the dtype and the device
    of the receiver, on storage taken from the allocator and handed out to
    nobody else. *)
Definition new_empty (t : Tensor) (shape : list Z) : M Tensor :=
  fun st =>
    match find (fun s => s <? 0) shape with
    | Some s => (Raise (NegativeDimension s), st)
    | None =>
        let w := world st in
        (Ok (mkTensor shape (contiguous_strides shape) (dtype t) (device t)
               (next_alloc w)),
         mkState (self st)
           (mkWorld (calls w) (printed w) (next_alloc w + 1)))
    end.

(** ** The constructor and the methods *)

Section Binding.

(** The vendor library the binding is linked against. *)
Variable vendor : Vendor.

(** [cusparselt_helper] names a tensor [weight_compressed] that neither the
    struct nor the function declares; whatever the name resolves to is a
    parameter of the embedding. *)
Variable weight_compressed : Tensor.

(** Evaluating the argument of a [CHECK_] macro: the call is made, logged,
    and whatever it stores through an out-parameter into a member is stored
    before the status is looked at. *)
Definition invoke (c : Call) (store : Reply -> CusparseLt -> CusparseLt)
  : M Reply :=
  fun st =>
    let r := vendor (calls (world st)) c in
    (Ok r, mkState (store r (self st)) (log_call c r (world st))).

Definition no_store : Reply -> CusparseLt -> CusparseLt := fun _ this => this.

(** An opaque member the vendor fills in is taken as filled in only when the
    call reports success. *)
Definition on_success (f : CusparseLt -> CusparseLt)
  : Reply -> CusparseLt -> CusparseLt :=
  fun r this => if status r =? CUSPARSE_STATUS_SUCCESS then f this else this.

(** [#define CHECK_CUDA(func)] *)
Definition CHECK_CUDA (func : M Reply) : M Reply :=
  r <- func ;;
  TORCH_CHECK (status r =? cudaSuccess) (CudaApiFailed (status r)) ;;
  ret r.

(** [#define CHECK_CUSPARSE(func)] *)
Definition CHECK_CUSPARSE (func : M Reply) : M Reply :=
  r <- func ;;
  TORCH_CHECK (status r =? CUSPARSE_STATUS_SUCCESS)
    (CusparseApiFailed (status r)) ;;
  ret r.

(** The test of the constructor's [if]: true when the device is none of
    8.0, 8.6, 8.9. *)
Definition unsupported_cc (major_cc minor_cc : Z) : bool :=
  negb ((major_cc =? 8) && (minor_cc =? 0))
  && negb ((major_cc =? 8) && (minor_cc =? 6))
  && negb ((major_cc =? 8) && (minor_cc =? 9)).

(** The body of [CusparseLt(const at::Tensor& sparse_compressed)]; the
    [return] inside the [if] is the end of the first branch. *)
Definition constructor_body : M unit :=
  major <- CHECK_CUDA
             (invoke (cudaDeviceGetAttribute cudaDevAttrComputeCapabilityMajor 0)
                no_store) ;;
  minor <- CHECK_CUDA
             (invoke (cudaDeviceGetAttribute cudaDevAttrComputeCapabilityMinor 0)
                no_store) ;;
  let major_cc := out1 major in
  let minor_cc := out1 minor in
  if unsupported_cc major_cc minor_cc then
    printf major_cc minor_cc
  else
    this <- get_this ;;
    CHECK_CUSPARSE
      (invoke (cusparseLtInit (handle this))
         (on_success (set_handle HandleInitialized))) ;;
    this <- get_this ;;
    if ScalarType_eqb (dtype (sparse_compressed this)) kInt8 then
      assign (set_type CUDA_R_8I) ;;
      assign (set_compute_type CUSPARSE_COMPUTE_32I)
    else if ScalarType_eqb (dtype (sparse_compressed this)) bFloat16 then
      assign (set_type CUDA_R_B16F) ;;
      assign (set_compute_type CUSPARSE_COMPUTE_32I)
    else ret tt.

(** [torch::init<const at::Tensor&>()]: the members are initialised, the body
    runs, and the object exists only if the body did not throw. *)
Definition CusparseLt_new (mem : Indeterminate) (t : Tensor) (w : World)
  : result CusparseLt * World :=
  match constructor_body (mkState (member_init mem t) w) with
  | (Ok _, st) => (Ok (self st), world st)
  | (Raise e, st) => (Raise e, world st)
  end.

(** [void CusparseLt::compress(const at::Tensor& sparse_input,
                               bool is_sparse_input_transposed)] *)
Definition compress (sparse_input : Tensor) (is_sparse_input_transposed : bool)
  : M unit :=
  m <- size sparse_input 0 ;;
  k <- size sparse_input 1 ;;
  let is_rowmajor := cusparseOrder_eqb order CUSPARSE_ORDER_ROW in
  assign (set_opA (if is_sparse_input_transposed
                   then CUSPARSE_OPERATION_TRANSPOSE
                   else CUSPARSE_OPERATION_NON_TRANSPOSE)) ;;
  assign (set_num_A_rows (if is_sparse_input_transposed then k else m)) ;;
  this <- get_this ;;
  let num_A_cols := if is_sparse_input_transposed then m else k in
  let lda := if is_rowmajor then num_A_cols else num_A_rows this in
  CHECK_CUSPARSE
    (invoke
       (cusparseLtStructuredDescriptorInit (handle this) (num_A_rows this)
          num_A_cols lda (alignment this) (type this) order
          CUSPARSELT_SPARSITY_50_PERCENT)
       (on_success
          (set_sparse_input_descriptor
             (Some (mkMatDescriptor (num_A_rows this) num_A_cols lda
                      (alignment this) (type this) order
                      (Some CUSPARSELT_SPARSITY_50_PERCENT)))))) ;;
  this <- get_this ;;
  sz <- CHECK_CUSPARSE
          (invoke
             (cusparseLtSpMMACompressedSize2 (handle this)
                (sparse_input_descriptor this))
             no_store) ;;
  let compressed_size := out1 sz in
  let compressed_buffer_size := out2 sz in
  buf <- CHECK_CUDA (invoke (cudaMalloc compressed_buffer_size) no_store) ;;
  let compressedBuffer := out1 buf in
  this <- get_this ;;
  CHECK_CUSPARSE
    (invoke
       (cusparseLtSpMMACompress2 (handle this) (sparse_input_descriptor this)
          true (opA this) (data_ptr sparse_input)
          (data_ptr (sparse_compressed this)) compressedBuffer (stream this))
       no_store) ;;
  ret tt.

(** [at::Tensor CusparseLt::cusparselt_helper(const at::Tensor& input,
                                              void* dBias,
                                              int64_t biasStride)] *)
Definition cusparselt_helper (input : Tensor) (dBias : Z) (biasStride : Z)
  : M Tensor :=
  k <- size input 0 ;;
  n <- size input 1 ;;
  this <- get_this ;;
  res <- new_empty input [num_A_rows this; n] ;;
  let is_dense_input_transposed := negb (is_contiguous input) in
  let opB := if is_dense_input_transposed
             then CUSPARSE_OPERATION_TRANSPOSE
             else CUSPARSE_OPERATION_NON_TRANSPOSE in
  let num_B_rows := if is_dense_input_transposed then n else k in
  let num_B_cols := if is_dense_input_transposed then k else n in
  let num_C_rows := num_A_rows this in
  let num_C_cols := n in
  let is_rowmajor := cusparseOrder_eqb order CUSPARSE_ORDER_ROW in
  let ldb := if is_rowmajor then num_B_cols else num_B_rows in
  let ldc := if is_rowmajor then num_C_cols else num_C_rows in
  CHECK_CUSPARSE
    (invoke
       (cusparseLtDenseDescriptorInit (handle this) DenseInputSlot num_B_rows
          num_B_cols ldb (alignment this) (type this) order)
       (on_success
          (set_dense_input_descriptor
             (Some (mkMatDescriptor num_B_rows num_B_cols ldb
                      (alignment this) (type this) order None))))) ;;
  CHECK_CUSPARSE
    (invoke
       (cusparseLtDenseDescriptorInit (handle this) ResSlot num_C_rows
          num_C_cols ldc (alignment this) (type this) CUSPARSE_ORDER_ROW)
       (on_success
          (set_res_descriptor
             (Some (mkMatDescriptor num_C_rows num_C_cols ldc
                      (alignment this) (type this) CUSPARSE_ORDER_ROW
                      None))))) ;;
  this <- get_this ;;
  CHECK_CUSPARSE
    (invoke
       (cusparseLtMatmulDescriptorInit (handle this) (opA this) opB
          (sparse_input_descriptor this) (dense_input_descriptor this)
          (res_descriptor this) (res_descriptor this) (compute_type this))
       no_store) ;;
  CHECK_CUSPARSE
    (invoke
       (cusparseLtMatmulDescSetAttribute (handle this)
          CUSPARSELT_MATMUL_BIAS_POINTER dBias)
       no_store) ;;
  CHECK_CUSPARSE
    (invoke
       (cusparseLtMatmulDescSetAttribute (handle this)
          CUSPARSELT_MATMUL_BIAS_STRIDE biasStride)
       no_store) ;;
  CHECK_CUSPARSE
    (invoke
       (cusparseLtMatmulAlgSelectionInit (handle this)
          CUSPARSELT_MATMUL_ALG_DEFAULT)
       no_store) ;;
  CHECK_CUSPARSE (invoke (cusparseLtMatmulPlanInit (handle this)) no_store) ;;
  ws <- CHECK_CUSPARSE
          (invoke (cusparseLtMatmulGetWorkspace (handle this)) no_store) ;;
  let workspace_size := out1 ws in
  CHECK_CUDA
    (invoke (cudaMalloc workspace_size) (fun r => set_d_workspace (out1 r))) ;;
  this <- get_this ;;
  (if alg_id this =? 7777 then
     CHECK_CUSPARSE
       (invoke
          (cusparseLtMatmulSearch (handle this) (alpha this)
             (data_ptr weight_compressed) (data_ptr input) (beta this)
             (data_ptr res) (data_ptr res) (d_workspace this) (streams this)
             (num_streams this))
          no_store) ;;
     CHECK_CUSPARSE
       (invoke
          (cusparseLtMatmulAlgGetAttribute (handle this)
             CUSPARSELT_MATMUL_ALG_CONFIG_ID)
          (fun r => set_alg_id (out1 r)))
   else
     CHECK_CUSPARSE
       (invoke
          (cusparseLtMatmulAlgSetAttribute (handle this)
             CUSPARSELT_MATMUL_ALG_CONFIG_ID (alg_id this))
          no_store) ;;
     CHECK_CUSPARSE
       (invoke
          (cusparseLtMatmul (handle this) (alpha this)
             (data_ptr weight_compressed) (data_ptr input) (beta this)
             (data_ptr res) (data_ptr res) (d_workspace this) (streams this)
             (num_streams this))
          no_store)) ;;
  CHECK_CUSPARSE
    (invoke (cusparseLtMatDescriptorDestroy DenseInputSlot)
       (on_success (set_dense_input_descriptor None))) ;;
  CHECK_CUSPARSE
    (invoke (cusparseLtMatDescriptorDestroy ResSlot)
       (on_success (set_res_descriptor None))) ;;
  CHECK_CUSPARSE (invoke cusparseLtMatmulPlanDestroy no_store) ;;
  ret res.

(** [at::Tensor CusparseLt::cusparselt_mm(const at::Tensor& input)] *)
Definition cusparselt_mm (input : Tensor) : M Tensor :=
  cusparselt_helper input nullptr 0.

(** [at::Tensor CusparseLt::cusparselt_addmm(const at::Tensor& input,
                                             const at::Tensor& bias)] *)
Definition cusparselt_addmm (input bias : Tensor) : M Tensor :=
  cusparselt_helper input (data_ptr bias) 0.

(** ** The registered interface

    [TORCH_LIBRARY(cusparselt, m)] exposes the constructor and three methods;
    a client can do nothing else with an object. *)
Inductive Method : Type :=
| call_cusparselt_mm (input : Tensor)
| call_cusparselt_addmm (input bias : Tensor)
| call_compress (sparse_input : Tensor) (transpose_sparse : bool).

Definition forget {A} (m : M A) : M unit := _ <- m ;; ret tt.

Definition dispatch (c : Method) : M unit :=
  match c with
  | call_cusparselt_mm input => forget (cusparselt_mm input)
  | call_cusparselt_addmm input bias => forget (cusparselt_addmm input bias)
  | call_compress sparse_input t => compress sparse_input t
  end.

(** A client's session with one object: the calls are made one after the
    other, and a call that throws leaves the object usable. *)
Fixpoint session (cs : list Method) (st : State) : State :=
  match cs with
  | [] => st
  | c :: rest => session rest (snd (dispatch c st))
  end.

(** The states an object can be in: freshly constructed, or one method call
    later than such a state. *)
Inductive reachable : State -> Prop :=
| reachable_new mem t w this w' :
    CusparseLt_new mem t w = (Ok this, w') ->
    reachable (mkState this w')
| reachable_call st c :
    reachable st ->
    reachable (snd (dispatch c st)).

End Binding.

Arguments reachable vendor weight_compressed st : clear implicits.

(** ** What the claims speak about *)

(** The entry points of the vendor library that run a kernel on tensor data,
    as opposed to those that set up or tear down descriptors, plans and
    buffers. *)
Inductive Kernel : Type :=
| PruneKernel | PruneCheckKernel | CompressKernel | SearchKernel
| MultiplyKernel.

Definition kernel_of (c : Call) : option Kernel :=
  match c with
  | cusparseLtSpMMAPrune2 _ _ _ _ _ _ _ _ => Some PruneKernel
  | cusparseLtSpMMAPruneCheck2 _ _ _ _ _ _ _ => Some PruneCheckKernel
  | cusparseLtSpMMACompress2 _ _ _ _ _ _ _ _ => Some CompressKernel
  | cusparseLtMatmulSearch _ _ _ _ _ _ _ _ _ _ => Some SearchKernel
  | cusparseLtMatmul _ _ _ _ _ _ _ _ _ _ => Some MultiplyKernel
  | _ => None
  end.

Definition is_search (e : Event) : bool :=
  match fst e with
  | cusparseLtMatmulSearch _ _ _ _ _ _ _ _ _ _ => true
  | _ => false
  end.

Definition is_matmul (e : Event) : bool :=
  match fst e with
  | cusparseLtMatmul _ _ _ _ _ _ _ _ _ _ => true
  | _ => false
  end.


(** The address a multiplying entry point reads its sparse operand from. *)
Definition sparse_operand (c : Call) : option Z :=
  match c with
  | cusparseLtMatmulSearch _ _ d_A _ _ _ _ _ _ _
  | cusparseLtMatmul _ _ d_A _ _ _ _ _ _ _ => Some d_A
  | _ => None
  end.

(** The address the compress entry point writes the compressed matrix to. *)
Definition compressed_output (c : Call) : option Z :=
  match c with
  | cusparseLtSpMMACompress2 _ _ _ _ _ d_compressed _ _ => Some d_compressed
  | _ => None
  end.

(** The handle a cuSPARSELt call is given, for those that take one. *)
Definition handle_of (c : Call) : option cusparseLtHandle_t :=
  match c with
  | cusparseLtInit h
  | cusparseLtStructuredDescriptorInit h _ _ _ _ _ _ _
  | cusparseLtDenseDescriptorInit h _ _ _ _ _ _ _
  | cusparseLtSpMMAPrune2 h _ _ _ _ _ _ _
  | cusparseLtSpMMAPruneCheck2 h _ _ _ _ _ _
  | cusparseLtSpMMACompressedSize2 h _
  | cusparseLtSpMMACompress2 h _ _ _ _ _ _ _
  | cusparseLtMatmulDescriptorInit h _ _ _ _ _ _ _
  | cusparseLtMatmulDescSetAttribute h _ _
  | cusparseLtMatmulAlgSelectionInit h _
  | cusparseLtMatmulPlanInit h
  | cusparseLtMatmulGetWorkspace h
  | cusparseLtMatmulSearch h _ _ _ _ _ _ _ _ _
  | cusparseLtMatmulAlgGetAttribute h _
  | cusparseLtMatmulAlgSetAttribute h _ _
  | cusparseLtMatmul h _ _ _ _ _ _ _ _ _ => Some h
  | _ => None
  end.

(** The exception a failed call must end in: [CHECK_CUDA] for the two CUDA
    runtime functions, [CHECK_CUSPARSE] for the rest. *)
Definition api_error (c : Call) (st : Z) : error :=
  match c with
  | cudaDeviceGetAttribute _ _ | cudaMalloc _ => CudaApiFailed st
  | _ => CusparseApiFailed st
  end.

Definition succeeded (e : Event) : Prop := status (snd e) = 0.

(** A failed call is the last call, and the method ends in its exception. *)
Definition stops_at_failure {A} (r : result A) (delta : list Event) : Prop :=
  forall pre c reply post,
    delta = pre ++ (c, reply) :: post ->
    status reply <> 0 ->
    post = [] /\ r = Raise (api_error c (status reply)).

(** [keeps I phi m psi]: run from an object that satisfies [I], the body [m]
    leaves an object that satisfies [I], only appends to the call log, every
    appended call satisfies [phi], and a returned value satisfies [psi].
    This holds whether [m] returns or throws. *)
Definition keeps {A} (I : CusparseLt -> Prop) (phi : Event -> Prop)
  (m : M A) (psi : A -> Prop) : Prop :=
  forall st,
    I (self st) ->
    I (self (snd (m st)))
    /\ (exists delta,
          calls (world (snd (m st))) = calls (world st) ++ delta
          /\ Forall phi delta)
    /\ (forall a, fst (m st) = Ok a -> psi a).

(** [checks m]: every call [m] makes is followed by a test of its status. *)
Definition checks {A} (m : M A) : Prop :=
  forall st,
    exists delta,
      calls (world (snd (m st))) = calls (world st) ++ delta
      /\ (forall a, fst (m st) = Ok a -> Forall succeeded delta)
      /\ stops_at_failure (fst (m st)) delta.

(** The members that no code path assigns keep their initialisers. *)
Definition standing (this : CusparseLt) : Prop :=
  alignment this = 16
  /\ alpha this = 1%Q
  /\ beta this = 0%Q
  /\ num_streams this = 0
  /\ stream this = nullptr
  /\ streams this = nullptr.

(** The vendor's type pair for a dtype, in the words of the claim about the
    constructor. *)
Definition translates_dtype (t : Tensor) (this : CusparseLt) : Prop :=
  (dtype t = kInt8 ->
   type this = CUDA_R_8I /\ compute_type this = CUSPARSE_COMPUTE_32I)
  /\ (dtype t = bFloat16 ->
      type this = CUDA_R_B16F /\ compute_type this = CUSPARSE_COMPUTE_32I)
  /\ (dtype t <> kInt8 -> dtype t <> bFloat16 ->
      type this = CUDA_R_16F /\ compute_type this = CUSPARSE_COMPUTE_16F).

(** Where the compressed matrix is written and where the sparse operand is
    read, call by call. *)
Definition moves_compressed (written read : Z) (e : Event) : Prop :=
  (forall p, compressed_output (fst e) = Some p -> p = written)
  /\ (forall p, sparse_operand (fst e) = Some p -> p = read).


Definition qMajor : Call :=
  cudaDeviceGetAttribute cudaDevAttrComputeCapabilityMajor 0.
Definition qMinor : Call :=
  cudaDeviceGetAttribute cudaDevAttrComputeCapabilityMinor 0.

(** The operation the dense operand of a matmul descriptor is given, and
    the layout (rows, columns, leading dimension, order) the dense input
    descriptor is initialised with. *)
Definition dense_operation (c : Call) : option cusparseOperation_t :=
  match c with
  | cusparseLtMatmulDescriptorInit _ _ opB _ _ _ _ _ => Some opB
  | _ => None
  end.

Definition dense_input_layout (c : Call)
  : option (Z * Z * Z * cusparseOrder_t) :=
  match c with
  | cusparseLtDenseDescriptorInit _ DenseInputSlot rows cols ld _ _ o =>
      Some (rows, cols, ld, o)
  | _ => None
  end.

(** The layout a dense input of shape k x n is to be described with: rows
    and columns swapped exactly when the tensor is not contiguous, and the
    column count as leading dimension. *)
Definition layout_of (input : Tensor) (k n : Z)
  : Z * Z * Z * cusparseOrder_t :=
  if is_contiguous input
  then (k, n, n, CUSPARSE_ORDER_ROW)
  else (n, k, k, CUSPARSE_ORDER_ROW).

Definition operation_of (input : Tensor) : cusparseOperation_t :=
  if is_contiguous input
  then CUSPARSE_OPERATION_NON_TRANSPOSE
  else CUSPARSE_OPERATION_TRANSPOSE.

Definition translates_layout (input : Tensor) (k n : Z) (e : Event) : Prop :=
  (forall l, dense_input_layout (fst e) = Some l -> l = layout_of input k n)
  /\ (forall op, dense_operation (fst e) = Some op -> op = operation_of input).

Definition cached (a : Z) (this : CusparseLt) : Prop := alg_id this = a.

Definition no_search (e : Event) : Prop := is_search e = false.

Definition only_known_kernels (e : Event) : Prop :=
  forall kn,
    kernel_of (fst e) = Some kn ->
    kn = CompressKernel \/ kn = SearchKernel \/ kn = MultiplyKernel.

Definition uninitialized_handle (e : Event) : Prop :=
  forall h, handle_of (fst e) = Some h -> h = HandleUninitialized.

Definition unready (this : CusparseLt) : Prop :=
  handle this = HandleUninitialized.

Definition anything (this : CusparseLt) : Prop := True.

(** A tensor whose storage was handed out between two worlds. *)
Definition allocated_between (w w' : World) (t : Tensor) : Prop :=
  next_alloc w <= data_ptr t < next_alloc w'.

(** ** Concrete vendors and tensors for the examples *)

(** A library on a device of compute capability [major].[minor] on which
    every call succeeds: allocations return distinct addresses, the
    compressed sizes are 1024 and 512 bytes, the workspace 256 bytes, and the
    search settles on configuration 3. *)
Definition vendor_on (major minor : Z) : Vendor :=
  fun history c =>
    match c with
    | cudaDeviceGetAttribute cudaDevAttrComputeCapabilityMajor _ =>
        mkReply 0 major 0
    | cudaDeviceGetAttribute cudaDevAttrComputeCapabilityMinor _ =>
        mkReply 0 minor 0
    | cudaMalloc _ => mkReply 0 (65536 + 4096 * Z.of_nat (length history)) 0
    | cusparseLtSpMMACompressedSize2 _ _ => mkReply 0 1024 512
    | cusparseLtMatmulGetWorkspace _ => mkReply 0 256 0
    | cusparseLtMatmulAlgGetAttribute _ _ => mkReply 0 3 0
    | _ => mkReply 0 0 0
    end.

(** The same library, except that the first search it is asked for fails
    with [CUSPARSE_STATUS_EXECUTION_FAILED] (6). *)
Definition vendor_first_search_fails : Vendor :=
  fun history c =>
    match c with
    | cusparseLtMatmulSearch _ _ _ _ _ _ _ _ _ _ =>
        if existsb is_search history then mkReply 0 0 0 else mkReply 6 0 0
    | _ => vendor_on 8 0 history c
    end.

Definition fresh_world : World := mkWorld [] [] 4096.

Definition no_garbage : Indeterminate :=
  mkIndeterminate 0 CUSPARSE_OPERATION_NON_TRANSPOSE.

(** A 64 x 128 half-precision weight, the tensor its compressed form goes to,
    an int8 variant of it, a contiguous 128 x 32 activation, the transposed
    view of a 32 x 128 one, and a bias. *)
Definition weight_f16 : Tensor :=
  mkTensor [64; 128] [128; 1] kFloat16 (CUDA 0) 1024.
Definition compressed_f16 : Tensor :=
  mkTensor [64; 72] [72; 1] kFloat16 (CUDA 0) 2048.
Definition compressed_i8 : Tensor :=
  mkTensor [64; 72] [72; 1] kInt8 (CUDA 0) 2048.
Definition stray_tensor : Tensor :=
  mkTensor [64; 72] [72; 1] kFloat16 (CUDA 0) 3072.
Definition dense_f16 : Tensor :=
  mkTensor [128; 32] [32; 1] kFloat16 (CUDA 0) 512.
Definition dense_f16_t : Tensor :=
  mkTensor [128; 32] [1; 128] kFloat16 (CUDA 0) 512.
Definition bias_f16 : Tensor :=
  mkTensor [64] [1] kFloat16 (CUDA 0) 256.

(** The object a construction yields, for the examples (the members as
    initialised if the constructor threw). *)
Definition constructed (vendor : Vendor) (mem : Indeterminate) (t : Tensor)
  (w : World) : State :=
  match CusparseLt_new vendor mem t w with
  | (Ok this, w') => mkState this w'
  | (Raise _, w') => mkState (member_init mem t) w'
  end.

Definition returned {A} (default : A) (r : result A) : A :=
  match r with
  | Ok a => a
  | Raise _ => default
  end.

(** An object on a supported device, before and after [compress]; the name
    [weight_compressed] stands for a tensor that is not the member. *)
Definition demo_new : State :=
  constructed (vendor_on 8 0) no_garbage compressed_f16 fresh_world.

Definition demo_compressed : State :=
  session (vendor_on 8 0) stray_tensor [call_compress weight_f16 false]
    demo_new.

(** The same on a device of compute capability 7.5. *)
Definition demo_unsupported : State :=
  constructed (vendor_on 7 5) no_garbage compressed_i8 fresh_world.

(** The searches in a log, and the addresses the compress entry point wrote
    to and the multiplying entry points read the sparse operand from. *)
Definition searches (l : list Event) : nat := length (filter is_search l).

Definition compressed_writes (l : list Event) : list Z :=
  flat_map (fun e => match compressed_output (fst e) with
                     | Some p => [p]
                     | None => []
                     end) l.

Definition sparse_reads (l : list Event) : list Z :=
  flat_map (fun e => match sparse_operand (fst e) with
                     | Some p => [p]
                     | None => []
                     end) l.

(** ** Further readings of the log *)

(** The calls of one kind in a log, each with what it was given and what it
    replied. *)
Definition collect {A} (f : Call -> option A) (l : list Event)
  : list (A * Reply) :=
  flat_map (fun e => match f (fst e) with
                     | Some a => [(a, snd e)]
                     | None => []
                     end) l.

Definition is_init (e : Event) : bool :=
  match fst e with
  | cusparseLtInit _ => true
  | _ => false
  end.

(** The calls at the end of [cusparselt_helper] that give resources back. *)
Definition is_teardown (e : Event) : bool :=
  match fst e with
  | cusparseLtMatDescriptorDestroy _ | cusparseLtMatmulPlanDestroy => true
  | _ => false
  end.

(** The value type a matrix descriptor is initialised with, and the compute
    type a matmul descriptor is initialised with. *)
Definition value_type_of (c : Call) : option cudaDataType :=
  match c with
  | cusparseLtStructuredDescriptorInit _ _ _ _ _ ty _ _
  | cusparseLtDenseDescriptorInit _ _ _ _ _ _ ty _ => Some ty
  | _ => None
  end.

Definition compute_type_of (c : Call) : option cusparseComputeType :=
  match c with
  | cusparseLtMatmulDescriptorInit _ _ _ _ _ _ _ ct => Some ct
  | _ => None
  end.

(** The stream of a compress call; the stream array and its length of a
    search or a multiplication. *)
Definition stream_of (c : Call) : option Z :=
  match c with
  | cusparseLtSpMMACompress2 _ _ _ _ _ _ _ s => Some s
  | _ => None
  end.

Definition streams_of (c : Call) : option (Z * Z) :=
  match c with
  | cusparseLtMatmulSearch _ _ _ _ _ _ _ _ ss n
  | cusparseLtMatmul _ _ _ _ _ _ _ _ ss n => Some (ss, n)
  | _ => None
  end.

(** The five device addresses of a search or a multiplication: A, B, C, D
    and the workspace. *)
Definition operands_of (c : Call) : option (Z * Z * Z * Z * Z) :=
  match c with
  | cusparseLtMatmulSearch _ _ d_A d_B _ d_C d_D ws _ _
  | cusparseLtMatmul _ _ d_A d_B _ d_C d_D ws _ _ =>
      Some (d_A, d_B, d_C, d_D, ws)
  | _ => None
  end.


Definition malloc_size (c : Call) : option Z :=
  match c with
  | cudaMalloc sz => Some sz
  | _ => None
  end.

Definition workspace_query (c : Call) : option cusparseLtHandle_t :=
  match c with
  | cusparseLtMatmulGetWorkspace h => Some h
  | _ => None
  end.

Definition bias_setting (c : Call)
  : option (cusparseLtMatmulDescAttribute_t * Z) :=
  match c with
  | cusparseLtMatmulDescSetAttribute _ attr v => Some (attr, v)
  | _ => None
  end.

(** What the result descriptor is initialised with, and the descriptors a
    matmul descriptor is given for A (with its operation) and for C and D. *)
Definition res_layout (c : Call) : option (Z * Z * Z * cusparseOrder_t) :=
  match c with
  | cusparseLtDenseDescriptorInit _ ResSlot rows cols ld _ _ o =>
      Some (rows, cols, ld, o)
  | _ => None
  end.

Definition sparse_side (c : Call)
  : option (cusparseOperation_t * option cusparseLtMatDescriptor_t) :=
  match c with
  | cusparseLtMatmulDescriptorInit _ opA _ matA _ _ _ _ => Some (opA, matA)
  | _ => None
  end.

Definition output_descriptors (c : Call)
  : option (option cusparseLtMatDescriptor_t
            * option cusparseLtMatDescriptor_t) :=
  match c with
  | cusparseLtMatmulDescriptorInit _ _ _ _ _ matC matD _ => Some (matC, matD)
  | _ => None
  end.

(** Invariants of the object and what they say of each call. *)
Definition holds_handle (h : cusparseLtHandle_t) (this : CusparseLt) : Prop :=
  handle this = h.

Definition given_handle (h : cusparseLtHandle_t) (e : Event) : Prop :=
  (forall h', handle_of (fst e) = Some h' -> h' = h) /\ is_init e = false.

Definition typed (ty : cudaDataType) (ct : cusparseComputeType)
  (this : CusparseLt) : Prop :=
  type this = ty /\ compute_type this = ct.

Definition described_as (ty : cudaDataType) (ct : cusparseComputeType)
  (e : Event) : Prop :=
  (forall ty', value_type_of (fst e) = Some ty' -> ty' = ty)
  /\ (forall ct', compute_type_of (fst e) = Some ct' -> ct' = ct).

Definition on_null_stream (e : Event) : Prop :=
  (forall s, stream_of (fst e) = Some s -> s = nullptr)
  /\ (forall ss n, streams_of (fst e) = Some (ss, n) ->
      ss = nullptr /\ n = 0).

Definition sets_bias (dBias biasStride : Z) (e : Event) : Prop :=
  forall attr v,
    bias_setting (fst e) = Some (attr, v) ->
    v = match attr with
        | CUSPARSELT_MATMUL_BIAS_POINTER => dBias
        | CUSPARSELT_MATMUL_BIAS_STRIDE => biasStride
        end.

Definition sparse_fixed (rows : Z) (op : cusparseOperation_t)
  (desc : option cusparseLtMatDescriptor_t) (this : CusparseLt) : Prop :=
  num_A_rows this = rows
  /\ opA this = op
  /\ sparse_input_descriptor this = desc.

Definition multiplies_with (op : cusparseOperation_t)
  (desc : option cusparseLtMatDescriptor_t) (e : Event) : Prop :=
  forall x, sparse_side (fst e) = Some x -> x = (op, desc).

Definition is_multiply (c : Method) : bool :=
  match c with
  | call_cusparselt_mm _ | call_cusparselt_addmm _ _ => true
  | call_compress _ _ => false
  end.

(** The operation [compress] stores for a transpose flag. *)
Definition operation_for (t : bool) : cusparseOperation_t :=
  if t then CUSPARSE_OPERATION_TRANSPOSE else CUSPARSE_OPERATION_NON_TRANSPOSE.

(** A library like [vendor_on 8 0] whose call number [n] (counted from 0 over
    the whole log) fails with [CUSPARSE_STATUS_INTERNAL_ERROR] (7). *)
Definition vendor_failing_at (n : nat) : Vendor :=
  fun history c =>
    if Nat.eqb (length history) n then mkReply 7 0 0
    else vendor_on 8 0 history c.

(** A three-dimensional float64 CPU tensor with the first two extents and
    the data address of [weight_f16], and a one-dimensional tensor. *)
Definition weight_odd : Tensor :=
  mkTensor [64; 128; 3] [1; 1; 1] kFloat64 CPU 1024.

Definition vector_f16 : Tensor :=
  mkTensor [128] [1] kFloat16 (CUDA 0) 512.

(** A dense input whose row count is not the column count of [weight_f16]. *)
Definition dense_short : Tensor :=
  mkTensor [7; 32] [32; 1] kFloat16 (CUDA 0) 768.

(** An object whose first [compress] call fails at once, and a compressed
    object whose first search fails. *)
Definition demo_compress_fails : State :=
  constructed (vendor_failing_at 3) no_garbage compressed_f16 fresh_world.

Definition demo_search_fails : State :=
  session (vendor_failing_at 16) stray_tensor [call_compress weight_f16 false]
    (constructed (vendor_failing_at 16) no_garbage compressed_f16
       fresh_world).

(** * Reasoning about method bodies *)

(** ** The invariant logic *)

Section InvariantLogic.

Variable vendor : Vendor.
Variable I : CusparseLt -> Prop.
Variable phi : Event -> Prop.

Lemma keeps_silent {A} (m : M A) (psi : A -> Prop) :
  (forall st, self (snd (m st)) = self st) ->
  (forall st, calls (world (snd (m st))) = calls (world st)) ->
  (forall st a, fst (m st) = Ok a -> psi a) ->
  keeps I phi m psi.
Proof.
  intros Hself Hcalls Hval st HI. rewrite Hself, Hcalls. repeat split.
  - exact HI.
  - exists []. rewrite app_nil_r. auto.
  - intros a Ha. eapply Hval, Ha.
Qed.

Lemma keeps_ret {A} (a : A) (psi : A -> Prop) :
  psi a -> keeps I phi (ret a) psi.
Proof.
  intros Ha. apply keeps_silent; cbn; auto. intros _ b Hb.
  injection Hb as <-. exact Ha.
Qed.

Lemma keeps_raise {A} (e : error) (psi : A -> Prop) :
  keeps I phi (raise e) psi.
Proof. apply keeps_silent; cbn; auto. discriminate. Qed.

Lemma keeps_get_this : keeps I phi get_this I.
Proof.
  intros st HI. cbn. repeat split; auto.
  - exists []. rewrite app_nil_r. auto.
  - intros a Ha. injection Ha as <-. exact HI.
Qed.

Lemma keeps_printf major minor :
  keeps I phi (printf major minor) (fun _ => True).
Proof. apply keeps_silent; cbn; auto. Qed.

Lemma keeps_TORCH_CHECK cond e :
  keeps I phi (TORCH_CHECK cond e) (fun _ => True).
Proof. destruct cond; [apply keeps_ret | apply keeps_raise]; auto. Qed.

Lemma keeps_size t d :
  keeps I phi (size t d) (fun s => nth_error (sizes t) d = Some s).
Proof.
  unfold size. destruct nth_error; [apply keeps_ret | apply keeps_raise]; auto.
Qed.

Lemma keeps_new_empty t shape :
  keeps I phi (new_empty t shape) (fun _ => True).
Proof.
  apply keeps_silent; auto; intros st; unfold new_empty;
    destruct find; reflexivity.
Qed.

Lemma keeps_assign f :
  (forall this, I this -> I (f this)) ->
  keeps I phi (assign f) (fun _ => True).
Proof.
  intros Hf st HI. cbn. repeat split; auto.
  exists []. rewrite app_nil_r. auto.
Qed.

Lemma keeps_invoke c store :
  (forall r, phi (c, r)) ->
  (forall r this, I this -> I (store r this)) ->
  keeps I phi (invoke vendor c store) (fun _ => True).
Proof.
  intros Hphi Hstore st HI. cbn. repeat split; auto.
  eexists. split; [reflexivity | auto].
Qed.

Lemma keeps_bind {A B} (m : M A) (k : A -> M B) psi1 psi2 :
  keeps I phi m psi1 ->
  (forall a, psi1 a -> keeps I phi (k a) psi2) ->
  keeps I phi (bind m k) psi2.
Proof.
  intros Hm Hk st HI. unfold bind.
  destruct (Hm st HI) as (HI1 & (d1 & Hd1 & Hphi1) & Hv1).
  destruct (m st) as [[a | e] st1]; cbn in *.
  - destruct (Hk a (Hv1 a eq_refl) st1 HI1)
      as (HI2 & (d2 & Hd2 & Hphi2) & Hv2).
    repeat split; auto.
    exists (d1 ++ d2). rewrite Hd2, Hd1, app_assoc. split; auto.
    apply Forall_app; auto.
  - repeat split; auto.
    + exists d1. auto.
    + discriminate.
Qed.

Lemma keeps_CHECK_CUDA func :
  keeps I phi func (fun _ => True) ->
  keeps I phi (CHECK_CUDA func) (fun _ => True).
Proof.
  intros Hf. unfold CHECK_CUDA.
  eapply keeps_bind; [exact Hf | intros r _].
  eapply keeps_bind; [apply keeps_TORCH_CHECK | intros _ _].
  apply keeps_ret; auto.
Qed.

Lemma keeps_CHECK_CUSPARSE func :
  keeps I phi func (fun _ => True) ->
  keeps I phi (CHECK_CUSPARSE func) (fun _ => True).
Proof.
  intros Hf. unfold CHECK_CUSPARSE.
  eapply keeps_bind; [exact Hf | intros r _].
  eapply keeps_bind; [apply keeps_TORCH_CHECK | intros _ _].
  apply keeps_ret; auto.
Qed.

Lemma keeps_forget {A} (m : M A) psi :
  keeps I phi m psi -> keeps I phi (forget m) (fun _ => True).
Proof.
  intros Hm. unfold forget.
  eapply keeps_bind; [exact Hm | intros; apply keeps_ret; auto].
Qed.

End InvariantLogic.

(** Walking a method body with the rules above: what is left are the facts
    about each call made ([phi]) and about each assignment ([I]). *)
Ltac walk_bind :=
  lazymatch goal with
  | |- keeps _ _ (bind get_this _) _ =>
      eapply keeps_bind; [apply keeps_get_this | intros ? ?]
  | |- keeps _ _ (bind (CHECK_CUSPARSE _) _) _ =>
      eapply keeps_bind;
      [apply keeps_CHECK_CUSPARSE, keeps_invoke | intros ? _]
  | |- keeps _ _ (bind (CHECK_CUDA _) _) _ =>
      eapply keeps_bind; [apply keeps_CHECK_CUDA, keeps_invoke | intros ? _]
  | |- keeps _ _ (bind (assign _) _) _ =>
      eapply keeps_bind; [apply keeps_assign | intros _ _]
  | |- keeps _ _ (bind (size _ _) _) _ =>
      eapply keeps_bind; [apply keeps_size | intros ? ?]
  | |- keeps _ _ (bind (new_empty _ _) _) _ =>
      eapply keeps_bind; [apply keeps_new_empty | intros ? _]
  | |- keeps _ _ (bind (if ?c then _ else _) _) _ =>
      eapply keeps_bind; [destruct c eqn:? | intros ? _]
  end.

Ltac walk_tail :=
  lazymatch goal with
  | |- keeps _ _ (ret _) _ => apply keeps_ret; exact Logic.I
  | |- keeps _ _ (printf _ _) _ => apply keeps_printf
  | |- keeps _ _ (assign _) _ => apply keeps_assign
  | |- keeps _ _ (CHECK_CUSPARSE _) _ =>
      apply keeps_CHECK_CUSPARSE, keeps_invoke
  | |- keeps _ _ (CHECK_CUDA _) _ => apply keeps_CHECK_CUDA, keeps_invoke
  | |- keeps _ _ (if ?c then _ else _) _ => destruct c eqn:?
  end.

Ltac walk := cbv zeta; repeat (first [walk_bind | walk_tail]; cbv zeta).

(** Discharging the side conditions of a walk: an assignment to another
    member does not disturb an invariant that only reads untouched ones. *)
Ltac stores_ok :=
  solve
    [ intros; unfold no_store, on_success;
      try destruct (status _ =? _);
      cbn; first [assumption | tauto] ].

Section Sessions.

Variable vendor : Vendor.
Variable weight_compressed : Tensor.
Variable I : CusparseLt -> Prop.
Variable phi : Event -> Prop.

Hypothesis keeps_compress :
  forall sparse_input t,
    keeps I phi (compress vendor sparse_input t) (fun _ => True).
Hypothesis keeps_helper :
  forall input dBias biasStride,
    keeps I phi
      (cusparselt_helper vendor weight_compressed input dBias biasStride)
      (fun _ => True).

Lemma keeps_dispatch c :
  keeps I phi (dispatch vendor weight_compressed c) (fun _ => True).
Proof.
  destruct c; cbn [dispatch].
  - eapply keeps_forget, keeps_helper.
  - eapply keeps_forget, keeps_helper.
  - apply keeps_compress.
Qed.

Lemma keeps_session cs :
  forall st,
    I (self st) ->
    I (self (session vendor weight_compressed cs st))
    /\ exists delta,
         calls (world (session vendor weight_compressed cs st))
         = calls (world st) ++ delta
         /\ Forall phi delta.
Proof.
  induction cs as [| c rest IH]; intros st HI; cbn [session].
  - split; [exact HI | exists []; rewrite app_nil_r; auto].
  - destruct (keeps_dispatch c st HI) as (HI1 & (d1 & Hd1 & Hphi1) & _).
    destruct (IH _ HI1) as (HI2 & d2 & Hd2 & Hphi2).
    split; [exact HI2 |].
    exists (d1 ++ d2). rewrite Hd2, Hd1, app_assoc. split; auto.
    apply Forall_app; auto.
Qed.

Hypothesis keeps_constructor :
  keeps I phi (constructor_body vendor) (fun _ => True).

Lemma keeps_new mem t w this w' :
  I (member_init mem t) ->
  CusparseLt_new vendor mem t w = (Ok this, w') ->
  I this
  /\ exists delta, calls w' = calls w ++ delta /\ Forall phi delta.
Proof.
  intros Hinit Hnew. unfold CusparseLt_new in Hnew.
  destruct (keeps_constructor (mkState (member_init mem t) w) Hinit)
    as (HI & Hlog & _).
  destruct (constructor_body vendor _) as [[u | e] st1];
    inversion Hnew; subst; auto.
Qed.

Lemma reachable_inv :
  (forall mem t, I (member_init mem t)) ->
  forall st, reachable vendor weight_compressed st -> I (self st).
Proof.
  intros Hinit st Hreach.
  induction Hreach as [mem t w this w' Hnew | st c Hreach IH].
  - apply (keeps_new mem t w this w' (Hinit mem t) Hnew).
  - apply (keeps_dispatch c st IH).
Qed.

End Sessions.

(** ** Symbolic execution

    Equations that run the head of a method body on a state. *)

Section Execution.

Variable vendor : Vendor.

Lemma run_ret {A B} (a : A) (k : A -> M B) st : bind (ret a) k st = k a st.
Proof. reflexivity. Qed.

Lemma run_raise {A B} (e : error) (k : A -> M B) st :
  bind (raise e) k st = (Raise e, st).
Proof. reflexivity. Qed.

Lemma run_bind_bind {A B C} (m : M A) (f : A -> M B) (g : B -> M C) st :
  bind (bind m f) g st = bind m (fun a => bind (f a) g) st.
Proof. unfold bind. destruct (m st) as [[a | e] st1]; reflexivity. Qed.

Lemma run_bind_if {A B} (c : bool) (m1 m2 : M A) (k : A -> M B) st :
  bind (if c then m1 else m2) k st
  = if c then bind m1 k st else bind m2 k st.
Proof. destruct c; reflexivity. Qed.

Lemma run_if {A} (c : bool) (m1 m2 : M A) st :
  (if c then m1 else m2) st = if c then m1 st else m2 st.
Proof. destruct c; reflexivity. Qed.

Lemma run_get_this {B} (k : CusparseLt -> M B) st :
  bind get_this k st = k (self st) st.
Proof. reflexivity. Qed.

Lemma run_assign {B} f (k : unit -> M B) st :
  bind (assign f) k st = k tt (mkState (f (self st)) (world st)).
Proof. reflexivity. Qed.

Lemma run_printf {B} major minor (k : unit -> M B) st :
  bind (printf major minor) k st
  = k tt (mkState (self st)
            (mkWorld (calls (world st))
               (printed (world st) ++ [(major, minor)])
               (next_alloc (world st)))).
Proof. reflexivity. Qed.

Lemma run_CHECK_CUSPARSE c store st :
  CHECK_CUSPARSE (invoke vendor c store) st
  = (if status (vendor (calls (world st)) c) =? 0
     then Ok (vendor (calls (world st)) c)
     else Raise (CusparseApiFailed (status (vendor (calls (world st)) c))),
     mkState (store (vendor (calls (world st)) c) (self st))
       (log_call c (vendor (calls (world st)) c) (world st))).
Proof.
  unfold CHECK_CUSPARSE, invoke, bind, TORCH_CHECK, CUSPARSE_STATUS_SUCCESS.
  destruct (status _ =? 0); reflexivity.
Qed.

Lemma run_CHECK_CUDA c store st :
  CHECK_CUDA (invoke vendor c store) st
  = (if status (vendor (calls (world st)) c) =? 0
     then Ok (vendor (calls (world st)) c)
     else Raise (CudaApiFailed (status (vendor (calls (world st)) c))),
     mkState (store (vendor (calls (world st)) c) (self st))
       (log_call c (vendor (calls (world st)) c) (world st))).
Proof.
  unfold CHECK_CUDA, invoke, bind, TORCH_CHECK, cudaSuccess.
  destruct (status _ =? 0); reflexivity.
Qed.

Lemma run_bind_CHECK_CUSPARSE {B} c store (k : Reply -> M B) st :
  bind (CHECK_CUSPARSE (invoke vendor c store)) k st
  = if status (vendor (calls (world st)) c) =? 0
    then k (vendor (calls (world st)) c)
           (mkState (store (vendor (calls (world st)) c) (self st))
              (log_call c (vendor (calls (world st)) c) (world st)))
    else (Raise (CusparseApiFailed (status (vendor (calls (world st)) c))),
          mkState (store (vendor (calls (world st)) c) (self st))
            (log_call c (vendor (calls (world st)) c) (world st))).
Proof.
  unfold bind at 1. rewrite run_CHECK_CUSPARSE.
  destruct (status _ =? 0); reflexivity.
Qed.

Lemma run_bind_CHECK_CUDA {B} c store (k : Reply -> M B) st :
  bind (CHECK_CUDA (invoke vendor c store)) k st
  = if status (vendor (calls (world st)) c) =? 0
    then k (vendor (calls (world st)) c)
           (mkState (store (vendor (calls (world st)) c) (self st))
              (log_call c (vendor (calls (world st)) c) (world st)))
    else (Raise (CudaApiFailed (status (vendor (calls (world st)) c))),
          mkState (store (vendor (calls (world st)) c) (self st))
            (log_call c (vendor (calls (world st)) c) (world st))).
Proof.
  unfold bind at 1. rewrite run_CHECK_CUDA.
  destruct (status _ =? 0); reflexivity.
Qed.

Lemma run_new_empty {B} t shape (k : Tensor -> M B) st :
  bind (new_empty t shape) k st
  = match find (fun s => s <? 0) shape with
    | Some s => (Raise (NegativeDimension s), st)
    | None =>
        k (mkTensor shape (contiguous_strides shape) (dtype t) (device t)
             (next_alloc (world st)))
          (mkState (self st)
             (mkWorld (calls (world st)) (printed (world st))
                (next_alloc (world st) + 1)))
    end.
Proof. unfold bind, new_empty. destruct find; reflexivity. Qed.

End Execution.

(** The members and the assignments, for [cbn] to compute with while the
    rest of the body stays folded. *)
Ltac project H :=
  cbv beta zeta in H;
  unfold on_success, no_store, log_call, CUSPARSE_STATUS_SUCCESS, cudaSuccess,
    order in H;
  cbn [self world calls printed next_alloc status out1 out2 fst snd
       Z.eqb cusparseOrder_eqb
       sparse_compressed handle sparse_input_descriptor
       dense_input_descriptor res_descriptor alignment alpha beta
       num_streams stream streams d_workspace alg_id num_A_rows
       pruning_algo opA type compute_type
       set_handle set_sparse_input_descriptor set_dense_input_descriptor
       set_res_descriptor set_d_workspace set_alg_id set_num_A_rows set_opA
       set_type set_compute_type] in H.

Ltac run_head H :=
  first
    [ rewrite run_ret in H
    | rewrite run_raise in H
    | rewrite run_get_this in H
    | rewrite run_assign in H
    | rewrite run_printf in H
    | rewrite run_bind_bind in H
    | rewrite run_bind_if in H
    | rewrite run_if in H
    | rewrite run_bind_CHECK_CUSPARSE in H
    | rewrite run_bind_CHECK_CUDA in H
    | rewrite run_CHECK_CUSPARSE in H
    | rewrite run_CHECK_CUDA in H ];
  project H.

(** The vendor's next reply becomes three variables and its status test is
    decided both ways. *)
Ltac next_reply v H :=
  match type of H with
  | context [v ?h ?c] =>
      lazymatch h with
      | context [v] => fail
      | _ => idtac
      end;
      let s := fresh "s" in
      let o1 := fresh "o" in
      let o2 := fresh "p" in
      let E := fresh "E" in
      destruct (v h c) as [s o1 o2];
      project H;
      destruct (s =? 0) eqn:E;
      [apply Z.eqb_eq in E; subst s | apply Z.eqb_neq in E];
      project H
  end.

(** A test of the body itself (not of a status) is decided both ways. *)
Ltac next_branch v H :=
  lazymatch type of H with
  | (if ?c then _ else _) = _ =>
      lazymatch c with
      | context [v] => fail
      | _ => destruct c eqn:?
      end
  end.

Ltac run v H :=
  repeat (first [next_reply v H | next_branch v H | run_head H]);
  unfold ret, raise, printf, assign in H; project H.

(** The same when every call is known to succeed. *)
Ltac next_reply_ok v Hall H :=
  match type of H with
  | context [v ?h ?c] =>
      lazymatch h with
      | context [v] => fail
      | _ => idtac
      end;
      let s := fresh "s" in
      let o1 := fresh "o" in
      let o2 := fresh "p" in
      let E := fresh "E" in
      pose proof (Hall h c) as E;
      destruct (v h c) as [s o1 o2];
      cbn [status] in E; subst s;
      project H
  end.

Ltac run_ok v Hall H :=
  repeat (first [next_reply_ok v Hall H | next_branch v H | run_head H]);
  unfold ret, raise, printf, assign in H; project H.

(** ** Status checking

    [checks] composes: a body made of checked calls and of steps that call
    nothing is checked. *)

Lemma failure_after_successes (d1 d2 pre post : list Event) (e : Event) :
  Forall succeeded d1 ->
  ~ succeeded e ->
  d1 ++ d2 = pre ++ e :: post ->
  exists pre', pre = d1 ++ pre' /\ d2 = pre' ++ e :: post.
Proof.
  revert pre. induction d1 as [| x d1 IH]; intros pre Hok Hbad Heq.
  - exists pre. auto.
  - inversion Hok as [| ? ? Hx Hd1]; subst. destruct pre as [| y pre].
    + cbn in Heq. injection Heq as -> _. contradiction.
    + cbn in Heq. injection Heq as -> Heq.
      destruct (IH pre Hd1 Hbad Heq) as (pre' & -> & ->).
      exists pre'. auto.
Qed.

Section StatusChecking.

Variable vendor : Vendor.

Lemma checks_silent {A} (m : M A) :
  (forall st, calls (world (snd (m st))) = calls (world st)) -> checks m.
Proof.
  intros Hcalls st. exists []. rewrite Hcalls, app_nil_r.
  split; [reflexivity |]. split.
  - intros a _. constructor.
  - intros pre c reply post Heq. destruct pre; discriminate.
Qed.

Lemma checks_ret {A} (a : A) : checks (ret a).
Proof. apply checks_silent; reflexivity. Qed.

Lemma checks_raise {A} (e : error) : checks (@raise A e).
Proof. apply checks_silent; reflexivity. Qed.

Lemma checks_get_this : checks get_this.
Proof. apply checks_silent; reflexivity. Qed.

Lemma checks_assign f : checks (assign f).
Proof. apply checks_silent; reflexivity. Qed.

Lemma checks_printf major minor : checks (printf major minor).
Proof. apply checks_silent; reflexivity. Qed.

Lemma checks_size t d : checks (size t d).
Proof. unfold size. destruct nth_error; apply checks_silent; reflexivity. Qed.

Lemma checks_new_empty t shape : checks (new_empty t shape).
Proof.
  apply checks_silent. intros st. unfold new_empty.
  destruct find; reflexivity.
Qed.

Lemma checks_one {A} (c : Call) (reply : Reply) (r : result A) :
  (status reply = 0 -> exists a, r = Ok a) ->
  (status reply <> 0 -> r = Raise (api_error c (status reply))) ->
  (forall a, r = Ok a -> Forall succeeded [(c, reply)])
  /\ stops_at_failure r [(c, reply)].
Proof.
  intros Hok Hbad. split.
  - intros a ->. constructor; [| constructor]. unfold succeeded. cbn.
    destruct (Z.eq_dec (status reply) 0) as [E | E]; auto.
    specialize (Hbad E). discriminate.
  - intros pre c' reply' post Heq Hfail.
    destruct pre as [| x pre]; cbn in Heq.
    + injection Heq as <- <- <-. auto.
    + injection Heq as _ Heq. destruct pre; discriminate.
Qed.

Lemma checks_CHECK_CUSPARSE c store :
  (forall s, api_error c s = CusparseApiFailed s) ->
  checks (CHECK_CUSPARSE (invoke vendor c store)).
Proof.
  intros Hkind st. rewrite run_CHECK_CUSPARSE. cbn [fst snd world calls log_call].
  eexists. split; [reflexivity |].
  apply checks_one; intros Hs.
  - apply Z.eqb_eq in Hs. rewrite Hs. eauto.
  - apply Z.eqb_neq in Hs. rewrite Hs, Hkind. reflexivity.
Qed.

Lemma checks_CHECK_CUDA c store :
  (forall s, api_error c s = CudaApiFailed s) ->
  checks (CHECK_CUDA (invoke vendor c store)).
Proof.
  intros Hkind st. rewrite run_CHECK_CUDA. cbn [fst snd world calls log_call].
  eexists. split; [reflexivity |].
  apply checks_one; intros Hs.
  - apply Z.eqb_eq in Hs. rewrite Hs. eauto.
  - apply Z.eqb_neq in Hs. rewrite Hs, Hkind. reflexivity.
Qed.

Lemma checks_bind {A B} (m : M A) (k : A -> M B) :
  checks m -> (forall a, checks (k a)) -> checks (bind m k).
Proof.
  intros Hm Hk st. unfold bind.
  destruct (Hm st) as (d1 & Hd1 & Hok1 & Hstop1).
  destruct (m st) as [[a | e] st1]; cbn [fst snd] in *.
  - destruct (Hk a st1) as (d2 & Hd2 & Hok2 & Hstop2).
    exists (d1 ++ d2). rewrite Hd2, Hd1, app_assoc.
    split; [reflexivity |].
    specialize (Hok1 a eq_refl). split.
    + intros b Hb. apply Forall_app. split; eauto.
    + intros pre c reply post Heq Hfail.
      destruct (failure_after_successes d1 d2 pre post (c, reply) Hok1)
        as (pre' & -> & Hd2'); auto.
      eapply Hstop2; eauto.
  - exists d1. split; [assumption |]. split; [discriminate |].
    intros pre c reply post Heq Hfail.
    destruct (Hstop1 pre c reply post Heq Hfail) as [-> E].
    injection E as ->. auto.
Qed.

Lemma checks_forget {A} (m : M A) : checks m -> checks (forget m).
Proof.
  intros Hm. unfold forget. apply checks_bind; auto.
  intros a. apply checks_ret.
Qed.

End StatusChecking.

Ltac check_step :=
  lazymatch goal with
  | |- checks (bind _ _) => apply checks_bind; [| intros ?]
  | |- checks (ret _) => apply checks_ret
  | |- checks get_this => apply checks_get_this
  | |- checks (assign _) => apply checks_assign
  | |- checks (printf _ _) => apply checks_printf
  | |- checks (size _ _) => apply checks_size
  | |- checks (new_empty _ _) => apply checks_new_empty
  | |- checks (CHECK_CUSPARSE _) =>
      apply checks_CHECK_CUSPARSE; reflexivity
  | |- checks (CHECK_CUDA _) => apply checks_CHECK_CUDA; reflexivity
  | |- checks (if ?c then _ else _) => destruct c
  end.

(** The end of a symbolic run: the pair is taken apart and the log brought
    to the form [old ++ new]. *)
Ltac conclude H :=
  first [injection H as <- <- | injection H as <-];
  cbn [fst snd self world calls printed next_alloc
       sparse_compressed handle sparse_input_descriptor
       dense_input_descriptor res_descriptor alignment alpha beta
       num_streams stream streams d_workspace alg_id num_A_rows
       pruning_algo opA type compute_type
       set_handle set_sparse_input_descriptor set_dense_input_descriptor
       set_res_descriptor set_d_workspace set_alg_id set_num_A_rows set_opA
       set_type set_compute_type];
  rewrite <- ?app_assoc; cbn [app].

(** * The claims *)

Section Claims.

Variable vendor : Vendor.
Variable weight_compressed : Tensor.

(** ** Shared facts *)

Lemma standing_compress sparse_input t :
  keeps standing (fun _ => True) (compress vendor sparse_input t)
    (fun _ => True).
Proof.
  unfold compress. walk. all: try (intros; exact Logic.I).
  all: unfold standing; stores_ok.
Qed.

Lemma standing_helper input dBias biasStride :
  keeps standing (fun _ => True)
    (cusparselt_helper vendor weight_compressed input dBias biasStride)
    (fun _ => True).
Proof.
  unfold cusparselt_helper. walk. all: try (intros; exact Logic.I).
  all: unfold standing; stores_ok.
Qed.

Lemma standing_constructor :
  keeps standing (fun _ => True) (constructor_body vendor) (fun _ => True).
Proof.
  unfold constructor_body. walk. all: try (intros; exact Logic.I).
  all: unfold standing; stores_ok.
Qed.

Lemma standing_member_init mem t : standing (member_init mem t).
Proof. unfold standing. cbn. tauto. Qed.

Lemma standing_reachable st :
  reachable vendor weight_compressed st -> standing (self st).
Proof.
  apply (reachable_inv vendor weight_compressed standing (fun _ => True)).
  - apply standing_compress.
  - apply standing_helper.
  - apply standing_constructor.
  - apply standing_member_init.
Qed.

Lemma compress_first_call st sparse_input (t : bool) (m k : Z) :
  sizes sparse_input = [m; k] ->
  let rows := if t then k else m in
  let cols := if t then m else k in
  let st' := snd (compress vendor sparse_input t st) in
  num_A_rows (self st') = rows
  /\ exists reply rest,
       calls (world st')
       = calls (world st)
         ++ (cusparseLtStructuredDescriptorInit (handle (self st)) rows cols
               cols (alignment (self st)) (type (self st)) CUSPARSE_ORDER_ROW
               CUSPARSELT_SPARSITY_50_PERCENT, reply) :: rest
       /\ (status reply = 0 ->
           sparse_input_descriptor (self st')
           = Some (mkMatDescriptor rows cols cols (alignment (self st))
                     (type (self st)) CUSPARSE_ORDER_ROW
                     (Some CUSPARSELT_SPARSITY_50_PERCENT))).
Proof.
  intros Hsizes rows cols st'. subst st' rows cols.
  destruct (compress vendor sparse_input t st) as [r st'] eqn:Hrun.
  unfold compress, size in Hrun. rewrite Hsizes in Hrun.
  cbn [nth_error] in Hrun.
  run vendor Hrun; conclude Hrun;
    (split; [reflexivity |]); do 2 eexists;
    (split; [reflexivity |]); cbn [status]; intros; congruence.
Qed.

(** The start of [cusparselt_helper] on a two-dimensional input: the sizes
    are read and the result is allocated, which throws on a negative row
    count. *)
Ltac enter_helper H Hsizes :=
  unfold cusparselt_helper, size in H; rewrite Hsizes in H;
  cbn [nth_error] in H; rewrite !run_ret in H; cbv beta in H;
  rewrite run_get_this in H; cbv beta in H;
  rewrite run_new_empty in H; cbn [find] in H.

Lemma helper_result input dBias biasStride k n st res st' :
  sizes input = [k; n] ->
  cusparselt_helper vendor weight_compressed input dBias biasStride st
  = (Ok res, st') ->
  res = mkTensor [num_A_rows (self st); n]
          (contiguous_strides [num_A_rows (self st); n]) (dtype input)
          (device input) (next_alloc (world st))
  /\ next_alloc (world st') = next_alloc (world st) + 1.
Proof.
  intros Hsizes Hrun. enter_helper Hrun Hsizes.
  destruct (num_A_rows (self st) <? 0); [discriminate |].
  destruct (n <? 0); [discriminate |].
  run vendor Hrun; try discriminate.
  all: injection Hrun as <- <-; split; reflexivity.
Qed.

Lemma helper_total input dBias biasStride k n st :
  sizes input = [k; n] ->
  (forall history c, status (vendor history c) = 0) ->
  0 <= num_A_rows (self st) ->
  0 <= n ->
  exists res st',
    cusparselt_helper vendor weight_compressed input dBias biasStride st
    = (Ok res, st').
Proof.
  intros Hsizes Hall Hrows Hn.
  destruct (cusparselt_helper _ _ _ _ _ _) as [r st'] eqn:Hrun.
  enter_helper Hrun Hsizes.
  destruct (Z.ltb_spec (num_A_rows (self st)) 0); [lia |].
  destruct (Z.ltb_spec n 0); [lia |].
  run_ok vendor Hall Hrun.
  all: injection Hrun as <- <-; eauto.
Qed.

Lemma helper_first_call input dBias biasStride k n st :
  sizes input = [k; n] ->
  0 <= num_A_rows (self st) ->
  0 <= n ->
  exists rows cols reply rest,
    calls (world (snd (cusparselt_helper vendor weight_compressed input
                         dBias biasStride st)))
    = calls (world st)
      ++ (cusparseLtDenseDescriptorInit (handle (self st)) DenseInputSlot
            rows cols cols (alignment (self st)) (type (self st))
            CUSPARSE_ORDER_ROW, reply) :: rest.
Proof.
  intros Hsizes Hrows Hn.
  destruct (cusparselt_helper _ _ _ _ _ _) as [r st'] eqn:Hrun.
  enter_helper Hrun Hsizes.
  destruct (Z.ltb_spec (num_A_rows (self st)) 0); [lia |].
  destruct (Z.ltb_spec n 0); [lia |].
  run vendor Hrun; conclude Hrun; do 4 eexists; reflexivity.
Qed.


(** Finding a call in a concrete log. *)
Ltac pick_event :=
  cbn [In]; repeat (first [left; reflexivity | right]).

(** ** C1 *)

Lemma bound_compress t sparse_input tr :
  keeps (fun this => sparse_compressed this = t)
    (moves_compressed (data_ptr t) (data_ptr weight_compressed))
    (compress vendor sparse_input tr) (fun _ => True).
Proof.
  unfold compress. walk.
  all: try (intros; split; cbn; intros; congruence).
  all: stores_ok.
Qed.

Lemma bound_helper t input dBias biasStride :
  keeps (fun this => sparse_compressed this = t)
    (moves_compressed (data_ptr t) (data_ptr weight_compressed))
    (cusparselt_helper vendor weight_compressed input dBias biasStride)
    (fun _ => True).
Proof.
  unfold cusparselt_helper. walk.
  all: try (intros; split; cbn; intros; congruence).
  all: stores_ok.
Qed.

(** C1.  What the code does with the compressed tensor: on an object
    constructed on tensor [t], whatever calls are made, [sparse_compressed]
    stays [t] and every call of the compress entry point writes to the data
    of [t]; but every call of the search and multiply entry points reads the
    sparse operand from the data of [weight_compressed], a name that is not
    the member. *)
Theorem C1_compressed_written_to_member_read_from_other_name
  (mem : Indeterminate) (t : Tensor) (w : World) (this : CusparseLt)
  (w' : World) (cs : list Method) :
  CusparseLt_new vendor mem t w = (Ok this, w') ->
  let st' := session vendor weight_compressed cs (mkState this w') in
  sparse_compressed (self st') = t
  /\ exists delta,
       calls (world st') = calls w' ++ delta
       /\ Forall
            (moves_compressed (data_ptr t) (data_ptr weight_compressed))
            delta.
Proof.
  intros Hnew st'. subst st'.
  assert (Hthis : sparse_compressed this = t).
  { unfold CusparseLt_new in Hnew.
    destruct (constructor_body vendor _) as [r st1] eqn:Hrun.
    unfold constructor_body in Hrun.
    run vendor Hrun; injection Hrun as <- <-; inversion Hnew; reflexivity. }
  apply (keeps_session vendor weight_compressed
           (fun this => sparse_compressed this = t)
           (moves_compressed (data_ptr t) (data_ptr weight_compressed))
           (bound_compress t) (bound_helper t) cs (mkState this w') Hthis).
Qed.

(** ** C2 *)

(** C2.  A call of [compress] on a sparse input of shape m x k with
    transpose flag t stores (t ? k : m) in [num_A_rows], and the first thing
    it asks of the vendor is to initialise the structured descriptor with
    (t ? k : m) rows, (t ? m : k) columns, the column count as leading
    dimension, alignment 16, row-major order and 50 percent sparsity; when
    that call succeeds the object's sparse descriptor holds these values. *)
Theorem C2_compress_structured_descriptor
  (st : State) (sparse_input : Tensor) (t : bool) (m k : Z) :
  reachable vendor weight_compressed st ->
  sizes sparse_input = [m; k] ->
  let rows := if t then k else m in
  let cols := if t then m else k in
  let st' := snd (compress vendor sparse_input t st) in
  num_A_rows (self st') = rows
  /\ exists reply rest,
       calls (world st')
       = calls (world st)
         ++ (cusparseLtStructuredDescriptorInit (handle (self st)) rows cols
               cols 16 (type (self st)) CUSPARSE_ORDER_ROW
               CUSPARSELT_SPARSITY_50_PERCENT, reply) :: rest
       /\ (status reply = 0 ->
           sparse_input_descriptor (self st')
           = Some (mkMatDescriptor rows cols cols 16 (type (self st))
                     CUSPARSE_ORDER_ROW
                     (Some CUSPARSELT_SPARSITY_50_PERCENT))).
Proof.
  intros Hreach Hsizes.
  destruct (standing_reachable st Hreach) as (Halign & _).
  pose proof (compress_first_call st sparse_input t m k Hsizes) as H.
  rewrite Halign in H. exact H.
Qed.

(** ** C3 *)

(** C3.  On a dense input of shape k x n, a result that [cusparselt_mm] or
    [cusparselt_addmm] returns has shape num_A_rows x n, the dtype and the
    device of the input, and storage allocated during the call; and both
    return when the vendor calls succeed and the sizes are not negative. *)
Theorem C3_result_tensor (st : State) (input bias : Tensor) (k n : Z) :
  sizes input = [k; n] ->
  (forall res st',
      cusparselt_mm vendor weight_compressed input st = (Ok res, st')
      \/ cusparselt_addmm vendor weight_compressed input bias st
         = (Ok res, st') ->
      sizes res = [num_A_rows (self st); n]
      /\ dtype res = dtype input
      /\ device res = device input
      /\ allocated_between (world st) (world st') res)
  /\ ((forall history c, status (vendor history c) = 0) ->
      0 <= num_A_rows (self st) ->
      0 <= n ->
      (exists res st',
          cusparselt_mm vendor weight_compressed input st = (Ok res, st'))
      /\ (exists res st',
             cusparselt_addmm vendor weight_compressed input bias st
             = (Ok res, st'))).
Proof.
  intros Hsizes. split.
  - intros res st' Hrun.
    assert (Hres : res = mkTensor [num_A_rows (self st); n]
                           (contiguous_strides [num_A_rows (self st); n])
                           (dtype input) (device input)
                           (next_alloc (world st))
                   /\ next_alloc (world st') = next_alloc (world st) + 1).
    { destruct Hrun as [Hrun | Hrun];
        eapply helper_result; eauto. }
    destruct Hres as [-> Hnext]. unfold allocated_between. cbn. 
    repeat split; try reflexivity; lia.
  - intros Hall Hrows Hn. split; eapply helper_total; eauto.
Qed.

(** ** C4 *)

(** C4, as the code has it.  When the constructor completes on a device
    whose compute capability passes the 8.0 / 8.6 / 8.9 test, the dtype of
    its tensor is translated: [kInt8] to [CUDA_R_8I] with
    [CUSPARSE_COMPUTE_32I], [bFloat16] to [CUDA_R_B16F] with
    [CUSPARSE_COMPUTE_32I], anything else keeps [CUDA_R_16F] with
    [CUSPARSE_COMPUTE_16F].  When it completes on any other device, the pair
    is [CUDA_R_16F] with [CUSPARSE_COMPUTE_16F] whatever the dtype. *)
Theorem C4_dtype_translation_on_supported_device
  (mem : Indeterminate) (t : Tensor) (w : World) (this : CusparseLt)
  (w' : World) :
  CusparseLt_new vendor mem t w = (Ok this, w') ->
  let major := vendor (calls w) qMajor in
  let minor := vendor (calls w ++ [(qMajor, major)]) qMinor in
  if unsupported_cc (out1 major) (out1 minor)
  then type this = CUDA_R_16F /\ compute_type this = CUSPARSE_COMPUTE_16F
  else translates_dtype t this.
Proof.
  intros Hnew major minor. subst major minor. unfold qMajor, qMinor.
  unfold CusparseLt_new in Hnew.
  destruct (constructor_body vendor _) as [r st1] eqn:Hrun.
  unfold constructor_body in Hrun.
  run vendor Hrun; injection Hrun as <- <-; inversion Hnew; subst;
    cbn [out1] in *;
    match goal with E : unsupported_cc _ _ = _ |- _ => rewrite E end.
  all: clear Hnew; unfold translates_dtype;
    cbn [sparse_compressed member_init] in *; cbn;
    try destruct (dtype t); cbn in *; repeat split; intros; congruence.
Qed.

(** ** C5 *)

Lemma cached_compress a sparse_input tr :
  keeps (cached a) no_search (compress vendor sparse_input tr)
    (fun _ => True).
Proof.
  unfold compress. walk.
  all: try (intros; reflexivity).
  all: unfold cached; stores_ok.
Qed.

Lemma cached_helper a input dBias biasStride :
  a <> 7777 ->
  keeps (cached a) no_search
    (cusparselt_helper vendor weight_compressed input dBias biasStride)
    (fun _ => True).
Proof.
  intros Ha. unfold cusparselt_helper. walk.
  all: try match goal with
           | E : (alg_id ?x =? 7777) = true, H : cached _ ?x |- _ =>
               apply Z.eqb_eq in E; unfold cached in H; congruence
           end.
  all: try (intros; reflexivity).
  all: unfold cached; stores_ok.
Qed.

(** C5, as the code has it.  A multiply call that returns normally has, if
    [alg_id] was 7777, run the search once and no multiplication, and has
    overwritten [alg_id] with the configuration id the vendor reported;
    otherwise it has set the cached [alg_id] on the algorithm selection and
    run one multiplication and no search.  Once [alg_id] is not 7777, in
    whatever state and however it got there, it never changes again and no
    later call runs the search. *)
Theorem C5_search_while_sentinel_then_cached
  (st : State) (input : Tensor) (dBias biasStride k n : Z) (res : Tensor)
  (st' : State) :
  sizes input = [k; n] ->
  cusparselt_helper vendor weight_compressed input dBias biasStride st
  = (Ok res, st') ->
  (exists delta,
      calls (world st') = calls (world st) ++ delta
      /\ if alg_id (self st) =? 7777
         then length (filter is_search delta) = 1%nat
              /\ filter is_matmul delta = []
              /\ exists reply,
                   In (cusparseLtMatmulAlgGetAttribute (handle (self st))
                         CUSPARSELT_MATMUL_ALG_CONFIG_ID, reply) delta
                   /\ alg_id (self st') = out1 reply
         else filter is_search delta = []
              /\ length (filter is_matmul delta) = 1%nat
              /\ (exists reply,
                     In (cusparseLtMatmulAlgSetAttribute (handle (self st))
                           CUSPARSELT_MATMUL_ALG_CONFIG_ID
                           (alg_id (self st)), reply) delta)
              /\ alg_id (self st') = alg_id (self st))
  /\ (alg_id (self st') <> 7777 ->
      forall cs,
        let st'' := session vendor weight_compressed cs st' in
        alg_id (self st'') = alg_id (self st')
        /\ exists later,
             calls (world st'') = calls (world st') ++ later
             /\ Forall no_search later)
  /\ (forall st0 cs,
         alg_id (self st0) <> 7777 ->
         let st'' := session vendor weight_compressed cs st0 in
         alg_id (self st'') = alg_id (self st0)
         /\ exists later,
              calls (world st'') = calls (world st0) ++ later
              /\ Forall no_search later).
Proof.
  intros Hsizes Hrun. split; [| split].
  - enter_helper Hrun Hsizes.
    destruct (num_A_rows (self st) <? 0); [discriminate |].
    destruct (n <? 0); [discriminate |].
    run vendor Hrun; try discriminate.
    all: conclude Hrun; eexists; (split; [reflexivity |]).
    + cbn [filter is_search is_matmul fst length].
      repeat split. eexists. split; [pick_event | reflexivity].
    + cbn [filter is_search is_matmul fst length].
      repeat split. eexists. pick_event.
  - intros Hid cs.
    apply (keeps_session vendor weight_compressed
             (cached (alg_id (self st'))) no_search
             (cached_compress _) (fun i d b => cached_helper _ i d b Hid)
             cs st' eq_refl).
  - intros st0 cs Hid.
    apply (keeps_session vendor weight_compressed
             (cached (alg_id (self st0))) no_search
             (cached_compress _) (fun i d b => cached_helper _ i d b Hid)
             cs st0 eq_refl).
Qed.

(** ** C6 *)

Ltac layout_ok :=
  repeat first [apply Forall_nil | apply Forall_cons];
  (split; intros ? Hx; cbn in Hx;
   first [discriminate | injection Hx as <-; reflexivity]).

(** C6.  On a dense input of shape k x n, every dense input descriptor the
    multiply path initialises has the rows and columns of the input swapped
    exactly when the input is not contiguous, the column count as leading
    dimension and row-major order, and every matmul descriptor marks the
    dense operand transposed exactly when the input is not contiguous.  The
    dense input descriptor is the first thing asked of the vendor (when the
    result can be allocated), and a call that returns has initialised a
    matmul descriptor. *)
Theorem C6_dense_input_layout
  (st : State) (input : Tensor) (dBias biasStride k n : Z) :
  sizes input = [k; n] ->
  let out :=
    cusparselt_helper vendor weight_compressed input dBias biasStride st in
  exists delta,
    calls (world (snd out)) = calls (world st) ++ delta
    /\ Forall (translates_layout input k n) delta
    /\ (0 <= num_A_rows (self st) -> 0 <= n ->
        exists e rest,
          delta = e :: rest
          /\ dense_input_layout (fst e) = Some (layout_of input k n))
    /\ (forall res, fst out = Ok res ->
        exists h opA dA dB dC dD ct reply,
          In (cusparseLtMatmulDescriptorInit h opA (operation_of input) dA dB
                dC dD ct, reply) delta).
Proof.
  intros Hsizes out. subst out.
  destruct (cusparselt_helper _ _ _ _ _ _) as [r st'] eqn:Hrun.
  enter_helper Hrun Hsizes. unfold translates_layout, layout_of, operation_of.
  destruct (Z.ltb_spec (num_A_rows (self st)) 0).
  { injection Hrun as <- <-. exists []. rewrite app_nil_r. cbn.
    repeat split; auto; try lia; discriminate. }
  destruct (Z.ltb_spec n 0).
  { injection Hrun as <- <-. exists []. rewrite app_nil_r. cbn.
    repeat split; auto; try lia; discriminate. }
  destruct (is_contiguous input); cbn [negb] in Hrun.
  all: run vendor Hrun; conclude Hrun; eexists; (split; [reflexivity |]);
    (split; [layout_ok |]);
    (split; [intros _ _; do 2 eexists; split; reflexivity |]);
    intros res Hres; try discriminate Hres;
    do 8 eexists; pick_event.
Qed.

(** ** C7 *)

Ltac known_kernel :=
  let Hk := fresh "Hk" in
  intros ? ? Hk; cbn in Hk;
  first [discriminate Hk | injection Hk as <-; auto].

Lemma kernels_constructor :
  keeps anything only_known_kernels (constructor_body vendor)
    (fun _ => True).
Proof.
  unfold constructor_body. walk.
  all: try known_kernel.
  all: intros; exact Logic.I.
Qed.

Lemma kernels_compress sparse_input tr :
  keeps anything only_known_kernels (compress vendor sparse_input tr)
    (fun _ => True).
Proof.
  unfold compress. walk.
  all: try known_kernel.
  all: intros; exact Logic.I.
Qed.

Lemma kernels_helper input dBias biasStride :
  keeps anything only_known_kernels
    (cusparselt_helper vendor weight_compressed input dBias biasStride)
    (fun _ => True).
Proof.
  unfold cusparselt_helper. walk.
  all: try known_kernel.
  all: intros; exact Logic.I.
Qed.

(** C7.  Over the life of an object, from its construction on, the only
    kernels the binding asks the vendor to run are compress, search and
    multiply: never prune, never prune-check.  A [compress] call that
    returns has made exactly four vendor calls: the descriptor
    initialisation, the size query, the allocation of the scratch buffer,
    and the compress entry point, which is handed the data of the sparse
    input as it came in. *)
Theorem C7_no_pruning
  (mem : Indeterminate) (t : Tensor) (w : World) (this : CusparseLt)
  (w' : World) (cs : list Method) :
  CusparseLt_new vendor mem t w = (Ok this, w') ->
  let st' := session vendor weight_compressed cs (mkState this w') in
  (exists delta,
      calls (world st') = calls w ++ delta
      /\ Forall only_known_kernels delta)
  /\ forall sparse_input tr m k st'',
       sizes sparse_input = [m; k] ->
       compress vendor sparse_input tr st' = (Ok tt, st'') ->
       let rows := if tr then k else m in
       let cols := if tr then m else k in
       let desc :=
         Some (mkMatDescriptor rows cols cols (alignment (self st'))
                 (type (self st')) CUSPARSE_ORDER_ROW
                 (Some CUSPARSELT_SPARSITY_50_PERCENT)) in
       exists r1 r2 r3 r4,
         calls (world st'')
         = calls (world st')
           ++ [(cusparseLtStructuredDescriptorInit (handle (self st')) rows
                  cols cols (alignment (self st')) (type (self st'))
                  CUSPARSE_ORDER_ROW CUSPARSELT_SPARSITY_50_PERCENT, r1);
               (cusparseLtSpMMACompressedSize2 (handle (self st')) desc, r2);
               (cudaMalloc (out2 r2), r3);
               (cusparseLtSpMMACompress2 (handle (self st')) desc true
                  (if tr
                   then CUSPARSE_OPERATION_TRANSPOSE
                   else CUSPARSE_OPERATION_NON_TRANSPOSE)
                  (data_ptr sparse_input)
                  (data_ptr (sparse_compressed (self st'))) (out1 r3)
                  (stream (self st')), r4)].
Proof.
  intros Hnew st'. split.
  - destruct (keeps_new vendor anything only_known_kernels
                kernels_constructor mem t w this w' Logic.I Hnew)
      as (_ & d0 & Hd0 & Hk0).
    destruct (keeps_session vendor weight_compressed anything
                only_known_kernels kernels_compress kernels_helper cs
                (mkState this w') Logic.I) as (_ & d1 & Hd1 & Hk1).
    exists (d0 ++ d1). subst st'. rewrite Hd1. cbn [world calls].
    rewrite Hd0, app_assoc. split; [reflexivity |].
    apply Forall_app; auto.
  - clearbody st'. clear Hnew. intros sparse_input tr m k st'' Hsizes Hrun.
    unfold compress, size in Hrun. rewrite Hsizes in Hrun.
    cbn [nth_error] in Hrun.
    run vendor Hrun; try discriminate.
    conclude Hrun. cbv zeta. do 4 eexists. apply f_equal.
    repeat (apply (f_equal2 cons); [reflexivity |]). reflexivity.
Qed.

(** ** C8 *)




(** ** C9 *)

Lemma checks_constructor : checks (constructor_body vendor).
Proof. unfold constructor_body. cbv zeta. repeat check_step. Qed.

Lemma checks_compress sparse_input tr :
  checks (compress vendor sparse_input tr).
Proof. unfold compress. cbv zeta. repeat check_step. Qed.

Lemma checks_helper input dBias biasStride :
  checks (cusparselt_helper vendor weight_compressed input dBias biasStride).
Proof. unfold cusparselt_helper. cbv zeta. repeat check_step. Qed.

(** C9.  In the constructor, in [compress] and in the two multiply methods,
    a CUDA or cuSPARSELt call that returns a status other than success is
    the last call made, and the operation ends in the exception of the
    [CHECK_] macro with that status. *)
Theorem C9_failed_call_raises :
  (forall mem t w,
      exists delta,
        calls (snd (CusparseLt_new vendor mem t w)) = calls w ++ delta
        /\ stops_at_failure (fst (CusparseLt_new vendor mem t w)) delta)
  /\ (forall sparse_input tr st,
         exists delta,
           calls (world (snd (compress vendor sparse_input tr st)))
           = calls (world st) ++ delta
           /\ stops_at_failure (fst (compress vendor sparse_input tr st))
                delta)
  /\ (forall input st,
         exists delta,
           calls (world (snd (cusparselt_mm vendor weight_compressed
                                input st)))
           = calls (world st) ++ delta
           /\ stops_at_failure
                (fst (cusparselt_mm vendor weight_compressed input st))
                delta)
  /\ (forall input bias st,
         exists delta,
           calls (world (snd (cusparselt_addmm vendor weight_compressed
                                input bias st)))
           = calls (world st) ++ delta
           /\ stops_at_failure
                (fst (cusparselt_addmm vendor weight_compressed input bias
                        st))
                delta).
Proof.
  repeat split.
  - intros mem t w. unfold CusparseLt_new.
    destruct (checks_constructor (mkState (member_init mem t) w))
      as (delta & Hlog & _ & Hstop).
    exists delta.
    destruct (constructor_body vendor _) as [[u | e] st1]; cbn in *;
      split; auto.
    + intros pre c reply post Heq Hfail.
      destruct (Hstop pre c reply post Heq Hfail) as [_ E]. discriminate.
    + intros pre c reply post Heq Hfail.
      destruct (Hstop pre c reply post Heq Hfail) as [-> E].
      injection E as ->. auto.
  - intros sparse_input tr st.
    destruct (checks_compress sparse_input tr st) as (delta & ? & _ & ?).
    eauto.
  - intros input st.
    destruct (checks_helper input nullptr 0 st) as (delta & ? & _ & ?).
    eauto.
  - intros input bias st.
    destruct (checks_helper input (data_ptr bias) 0 st)
      as (delta & ? & _ & ?).
    eauto.
Qed.

(** ** C10 *)

Ltac same_handle :=
  let Hh := fresh "Hh" in
  intros ? ? Hh; cbn in Hh;
  first [discriminate Hh | injection Hh as <-; assumption].

Lemma unready_compress sparse_input tr :
  keeps unready uninitialized_handle (compress vendor sparse_input tr)
    (fun _ => True).
Proof.
  unfold compress. walk.
  all: try same_handle.
  all: unfold unready; stores_ok.
Qed.

Lemma unready_helper input dBias biasStride :
  keeps unready uninitialized_handle
    (cusparselt_helper vendor weight_compressed input dBias biasStride)
    (fun _ => True).
Proof.
  unfold cusparselt_helper. walk.
  all: try same_handle.
  all: unfold unready; stores_ok.
Qed.

(** C10.  When the two capability queries succeed and report something
    other than 8.0, 8.6 or 8.9, the constructor prints its message and
    returns an object: it has made no call but the two queries,
    [cusparseLtInit] among them not, the handle is uninitialised and the
    type pair is the default one whatever the dtype; and every cuSPARSELt
    call that later [compress] and multiply calls make on this object is
    given the uninitialised handle. *)
Theorem C10_unsupported_device_still_constructs
  (mem : Indeterminate) (t : Tensor) (w : World) :
  let major := vendor (calls w) qMajor in
  let minor := vendor (calls w ++ [(qMajor, major)]) qMinor in
  status major = 0 ->
  status minor = 0 ->
  unsupported_cc (out1 major) (out1 minor) = true ->
  exists this w',
    CusparseLt_new vendor mem t w = (Ok this, w')
    /\ calls w' = calls w ++ [(qMajor, major); (qMinor, minor)]
    /\ printed w' = printed w ++ [(out1 major, out1 minor)]
    /\ handle this = HandleUninitialized
    /\ type this = CUDA_R_16F
    /\ compute_type this = CUSPARSE_COMPUTE_16F
    /\ (forall cs,
          let st' := session vendor weight_compressed cs (mkState this w') in
          handle (self st') = HandleUninitialized
          /\ exists delta,
               calls (world st') = calls w' ++ delta
               /\ Forall uninitialized_handle delta)
    /\ (forall sparse_input tr m k,
          sizes sparse_input = [m; k] ->
          exists e rest,
            calls (world (snd (compress vendor sparse_input tr
                                 (mkState this w'))))
            = calls w' ++ e :: rest
            /\ handle_of (fst e) = Some HandleUninitialized)
    /\ (forall input dBias biasStride k n,
          sizes input = [k; n] ->
          0 <= num_A_rows this ->
          0 <= n ->
          exists e rest,
            calls (world (snd (cusparselt_helper vendor weight_compressed
                                 input dBias biasStride (mkState this w'))))
            = calls w' ++ e :: rest
            /\ handle_of (fst e) = Some HandleUninitialized).
Proof.
  intros major minor Hmajor Hminor Hcc. subst major minor.
  unfold qMajor, qMinor in *. unfold CusparseLt_new.
  destruct (constructor_body vendor _) as [r st1] eqn:Hrun.
  unfold constructor_body in Hrun.
  run vendor Hrun; cbn [status out1] in *; try congruence.
  injection Hrun as <- <-. do 2 eexists. split; [reflexivity |].
  split; [cbn [self world calls]; rewrite <- app_assoc; reflexivity |].
  do 4 (split; [reflexivity |]).
  split; [| split].
  - intros cs.
    apply (keeps_session vendor weight_compressed unready
             uninitialized_handle unready_compress unready_helper cs).
    reflexivity.
  - intros sparse_input tr m k Hsizes.
    match goal with
    | |- context [compress vendor _ _ ?s] =>
        destruct (compress_first_call s sparse_input tr m k Hsizes)
          as (_ & reply & rest & Hlog & _)
    end.
    do 2 eexists. split; [exact Hlog | reflexivity].
  - intros input dBias biasStride k n Hsizes Hrows Hn.
    match goal with
    | |- context [cusparselt_helper vendor _ _ _ _ ?s] =>
        destruct (helper_first_call input dBias biasStride k n s Hsizes
                    Hrows Hn) as (rows & cols & reply & rest & Hlog)
    end.
    do 2 eexists. split; [exact Hlog | reflexivity].
Qed.

End Claims.

(** * The claims on concrete runs *)

Lemma demo_new_reachable : reachable (vendor_on 8 0) stray_tensor demo_new.
Proof.
  apply (reachable_new (vendor_on 8 0) stray_tensor no_garbage compressed_f16
           fresh_world (self demo_new) (world demo_new)).
  reflexivity.
Qed.

(** C1 at the failing input: the object is built on a tensor at address
    2048 while [weight_compressed] resolves to a tensor at address 3072. *)
Lemma C1_witness :
  CusparseLt_new (vendor_on 8 0) no_garbage compressed_f16 fresh_world
  = (Ok (self demo_new), world demo_new)
  /\ let st' :=
       session (vendor_on 8 0) stray_tensor
         [call_compress weight_f16 false; call_cusparselt_mm dense_f16]
         demo_new in
     sparse_compressed (self st') = compressed_f16
     /\ exists delta,
          calls (world st') = calls (world demo_new) ++ delta
          /\ Forall (moves_compressed 2048 3072) delta.
Proof.
  split; [reflexivity |].
  apply (C1_compressed_written_to_member_read_from_other_name (vendor_on 8 0)
           stray_tensor no_garbage compressed_f16 fresh_world (self demo_new)
           (world demo_new)
           [call_compress weight_f16 false; call_cusparselt_mm dense_f16]).
  reflexivity.
Defined.

(** The same run, evaluated: [compress] wrote the compressed matrix to 2048,
    the data of the member, and the search read its sparse operand from
    3072. *)
Lemma C1_sparse_operand_mismatch :
  let st' :=
    session (vendor_on 8 0) stray_tensor
      [call_compress weight_f16 false; call_cusparselt_mm dense_f16]
      demo_new in
  data_ptr (sparse_compressed (self st')) = 2048
  /\ compressed_writes (calls (world st')) = [2048]
  /\ sparse_reads (calls (world st')) = [3072].
Proof. repeat split. Qed.

Lemma C2_witness :
  reachable (vendor_on 8 0) stray_tensor demo_new
  /\ sizes weight_f16 = [64; 128]
  /\ let st' := snd (compress (vendor_on 8 0) weight_f16 true demo_new) in
     num_A_rows (self st') = 128
     /\ exists reply rest,
          calls (world st')
          = calls (world demo_new)
            ++ (cusparseLtStructuredDescriptorInit HandleInitialized 128 64
                  64 16 CUDA_R_16F CUSPARSE_ORDER_ROW
                  CUSPARSELT_SPARSITY_50_PERCENT, reply) :: rest
          /\ (status reply = 0 ->
              sparse_input_descriptor (self st')
              = Some (mkMatDescriptor 128 64 64 16 CUDA_R_16F
                        CUSPARSE_ORDER_ROW
                        (Some CUSPARSELT_SPARSITY_50_PERCENT))).
Proof.
  split; [exact demo_new_reachable |]. split; [reflexivity |].
  apply (C2_compress_structured_descriptor (vendor_on 8 0) stray_tensor
           demo_new weight_f16 true 64 128 demo_new_reachable eq_refl).
Defined.

Lemma C3_witness :
  sizes dense_f16 = [128; 32]
  /\ let out :=
       cusparselt_addmm (vendor_on 8 0) stray_tensor dense_f16 bias_f16
         demo_compressed in
     exists res st',
       out = (Ok res, st')
       /\ sizes res = [64; 32]
       /\ dtype res = kFloat16
       /\ device res = CUDA 0
       /\ allocated_between (world demo_compressed) (world st') res.
Proof.
  split; [reflexivity |].
  exists (returned dense_f16
            (fst (cusparselt_addmm (vendor_on 8 0) stray_tensor dense_f16
                    bias_f16 demo_compressed))).
  exists (snd (cusparselt_addmm (vendor_on 8 0) stray_tensor dense_f16
                 bias_f16 demo_compressed)).
  split; [vm_compute; reflexivity |].
  apply (proj1 (C3_result_tensor (vendor_on 8 0) stray_tensor demo_compressed
                  dense_f16 bias_f16 128 32 eq_refl)).
  right. vm_compute. reflexivity.
Defined.

(** C4 as stated fails: on a device of capability 7.5 the constructor
    returns an object for an int8 tensor whose type pair is still
    [CUDA_R_16F] / [CUSPARSE_COMPUTE_16F]. *)
Lemma C4_counterexample :
  ~ (forall (vendor : Vendor) mem t w this w',
        CusparseLt_new vendor mem t w = (Ok this, w') ->
        translates_dtype t this).
Proof.
  intros H.
  destruct (H (vendor_on 7 5) no_garbage compressed_i8 fresh_world
              (self demo_unsupported) (world demo_unsupported) eq_refl)
    as [Hint8 _].
  destruct (Hint8 eq_refl) as [Htype _]. discriminate Htype.
Qed.

Lemma C4_witness :
  CusparseLt_new (vendor_on 8 0) no_garbage compressed_i8 fresh_world
  = (Ok (self (constructed (vendor_on 8 0) no_garbage compressed_i8
                 fresh_world)),
     world (constructed (vendor_on 8 0) no_garbage compressed_i8
              fresh_world))
  /\ translates_dtype compressed_i8
       (self (constructed (vendor_on 8 0) no_garbage compressed_i8
                fresh_world)).
Proof.
  split; [reflexivity |].
  apply (C4_dtype_translation_on_supported_device (vendor_on 8 0) no_garbage
           compressed_i8 fresh_world _ _ eq_refl).
Defined.

(** C5 as stated fails: when the first search fails, the sentinel stays and
    the next multiply call searches again. *)
Lemma C5_counterexample :
  ~ (forall (vendor : Vendor) weight_compressed mem t cs this w',
        CusparseLt_new vendor mem t fresh_world = (Ok this, w') ->
        (searches
           (calls (world (session vendor weight_compressed cs
                            (mkState this w')))) <= 1)%nat).
Proof.
  intros H.
  specialize
    (H vendor_first_search_fails stray_tensor no_garbage compressed_f16
       [call_compress weight_f16 false; call_cusparselt_mm dense_f16;
        call_cusparselt_mm dense_f16]
       (self (constructed vendor_first_search_fails no_garbage compressed_f16
                fresh_world))
       (world (constructed vendor_first_search_fails no_garbage
                 compressed_f16 fresh_world))
       eq_refl).
  vm_compute in H. lia.
Qed.

Lemma C5_witness :
  sizes dense_f16 = [128; 32]
  /\ let out := cusparselt_mm (vendor_on 8 0) stray_tensor dense_f16
                  demo_compressed in
     let res := returned dense_f16 (fst out) in
     let st' := snd out in
     out = (Ok res, st')
     /\ (exists delta,
            calls (world st') = calls (world demo_compressed) ++ delta
            /\ length (filter is_search delta) = 1%nat
            /\ filter is_matmul delta = []
            /\ exists reply,
                 In (cusparseLtMatmulAlgGetAttribute HandleInitialized
                       CUSPARSELT_MATMUL_ALG_CONFIG_ID, reply) delta
                 /\ alg_id (self st') = out1 reply)
     /\ forall cs,
          let st'' := session (vendor_on 8 0) stray_tensor cs st' in
          alg_id (self st'') = 3
          /\ exists later,
               calls (world st'') = calls (world st') ++ later
               /\ Forall no_search later.
Proof.
  split; [reflexivity |].
  assert (Hrun : cusparselt_helper (vendor_on 8 0) stray_tensor dense_f16
                   nullptr 0 demo_compressed
                 = (Ok (returned dense_f16
                          (fst (cusparselt_mm (vendor_on 8 0) stray_tensor
                                  dense_f16 demo_compressed))),
                    snd (cusparselt_mm (vendor_on 8 0) stray_tensor dense_f16
                           demo_compressed)))
    by (vm_compute; reflexivity).
  split; [exact Hrun |].
  destruct (C5_search_while_sentinel_then_cached (vendor_on 8 0) stray_tensor
              demo_compressed dense_f16 nullptr 0 128 32 _ _ eq_refl Hrun)
    as [Hfirst [Hlater _]].
  split; [exact Hfirst |].
  apply Hlater. vm_compute. discriminate.
Defined.

Lemma C6_witness :
  sizes dense_f16_t = [128; 32]
  /\ let out := cusparselt_helper (vendor_on 8 0) stray_tensor dense_f16_t
                  nullptr 0 demo_compressed in
     exists delta,
       calls (world (snd out)) = calls (world demo_compressed) ++ delta
       /\ Forall (translates_layout dense_f16_t 128 32) delta
       /\ (0 <= 64 -> 0 <= 32 ->
           exists e rest,
             delta = e :: rest
             /\ dense_input_layout (fst e)
                = Some (32, 128, 128, CUSPARSE_ORDER_ROW))
       /\ (forall res, fst out = Ok res ->
           exists h opA dA dB dC dD ct reply,
             In (cusparseLtMatmulDescriptorInit h opA
                   CUSPARSE_OPERATION_TRANSPOSE dA dB dC dD ct, reply) delta).
Proof.
  split; [reflexivity |].
  apply (C6_dense_input_layout (vendor_on 8 0) stray_tensor demo_compressed
           dense_f16_t nullptr 0 128 32 eq_refl).
Defined.

Lemma C7_witness :
  CusparseLt_new (vendor_on 8 0) no_garbage compressed_f16 fresh_world
  = (Ok (self demo_new), world demo_new)
  /\ (exists delta,
         calls (world (session (vendor_on 8 0) stray_tensor
                         [call_compress weight_f16 false;
                          call_cusparselt_mm dense_f16;
                          call_cusparselt_addmm dense_f16 bias_f16]
                         demo_new))
         = calls fresh_world ++ delta
         /\ Forall only_known_kernels delta)
  /\ exists r1 r2 r3 r4,
       calls (world demo_compressed)
       = calls (world demo_new)
         ++ [(cusparseLtStructuredDescriptorInit HandleInitialized 64 128
                128 16 CUDA_R_16F CUSPARSE_ORDER_ROW
                CUSPARSELT_SPARSITY_50_PERCENT, r1);
             (cusparseLtSpMMACompressedSize2 HandleInitialized
                (Some (mkMatDescriptor 64 128 128 16 CUDA_R_16F
                         CUSPARSE_ORDER_ROW
                         (Some CUSPARSELT_SPARSITY_50_PERCENT))), r2);
             (cudaMalloc (out2 r2), r3);
             (cusparseLtSpMMACompress2 HandleInitialized
                (Some (mkMatDescriptor 64 128 128 16 CUDA_R_16F
                         CUSPARSE_ORDER_ROW
                         (Some CUSPARSELT_SPARSITY_50_PERCENT)))
                true CUSPARSE_OPERATION_NON_TRANSPOSE 1024 2048 (out1 r3) 0,
              r4)].
Proof.
  split; [reflexivity |]. split.
  - apply (C7_no_pruning (vendor_on 8 0) stray_tensor no_garbage
             compressed_f16 fresh_world (self demo_new) (world demo_new)
             [call_compress weight_f16 false; call_cusparselt_mm dense_f16;
              call_cusparselt_addmm dense_f16 bias_f16] eq_refl).
  - apply (proj2 (C7_no_pruning (vendor_on 8 0) stray_tensor no_garbage
                    compressed_f16 fresh_world (self demo_new)
                    (world demo_new) [] eq_refl)
             weight_f16 false 64 128 demo_compressed eq_refl eq_refl).
Defined.


Lemma C10_witness :
  status (vendor_on 7 5 (calls fresh_world) qMajor) = 0
  /\ status (vendor_on 7 5
               (calls fresh_world
                ++ [(qMajor, vendor_on 7 5 (calls fresh_world) qMajor)])
               qMinor) = 0
  /\ unsupported_cc 7 5 = true
  /\ exists this w',
       CusparseLt_new (vendor_on 7 5) no_garbage compressed_i8 fresh_world
       = (Ok this, w')
       /\ calls w' = [(qMajor, mkReply 0 7 0); (qMinor, mkReply 0 5 0)]
       /\ printed w' = [(7, 5)]
       /\ handle this = HandleUninitialized
       /\ type this = CUDA_R_16F
       /\ compute_type this = CUSPARSE_COMPUTE_16F
       /\ (forall cs,
             let st' :=
               session (vendor_on 7 5) stray_tensor cs (mkState this w') in
             handle (self st') = HandleUninitialized
             /\ exists delta,
                  calls (world st') = calls w' ++ delta
                  /\ Forall uninitialized_handle delta)
       /\ (forall sparse_input tr m k,
             sizes sparse_input = [m; k] ->
             exists e rest,
               calls (world (snd (compress (vendor_on 7 5) sparse_input tr
                                    (mkState this w'))))
               = calls w' ++ e :: rest
               /\ handle_of (fst e) = Some HandleUninitialized)
       /\ (forall input dBias biasStride k n,
             sizes input = [k; n] ->
             0 <= num_A_rows this ->
             0 <= n ->
             exists e rest,
               calls (world (snd (cusparselt_helper (vendor_on 7 5)
                                    stray_tensor input dBias biasStride
                                    (mkState this w'))))
               = calls w' ++ e :: rest
               /\ handle_of (fst e) = Some HandleUninitialized).
Proof.
  split; [reflexivity |]. split; [reflexivity |]. split; [reflexivity |].
  apply (C10_unsupported_device_still_constructs (vendor_on 7 5) stray_tensor
           no_garbage compressed_i8 fresh_world eq_refl eq_refl eq_refl).
Defined.

(** * Further properties of the binding *)

Lemma unsupported_cc_false major minor :
  unsupported_cc major minor = false
  <-> major = 8 /\ (minor = 0 \/ minor = 6 \/ minor = 9).
Proof.
  unfold unsupported_cc.
  destruct (Z.eqb_spec major 8), (Z.eqb_spec minor 0), (Z.eqb_spec minor 6),
    (Z.eqb_spec minor 9); cbn; split; intros; try discriminate;
    try reflexivity; try lia; tauto.
Qed.

Section Further.

Variable vendor : Vendor.
Variable weight_compressed : Tensor.

(** The start of [cusparselt_helper] on a two-dimensional input. *)
Ltac open_helper H Hsizes :=
  unfold cusparselt_helper, size in H; rewrite Hsizes in H;
  cbn [nth_error] in H; rewrite !run_ret in H; cbv beta in H;
  rewrite run_get_this in H; cbv beta in H;
  rewrite run_new_empty in H; cbn [find] in H.

(** X1.  When both capability queries succeed, the constructor calls
    [cusparseLtInit] exactly when the device is 8.0, 8.6 or 8.9, prints
    nothing exactly then, and an object it returns has an initialised handle
    exactly then. *)
Theorem X1_constructor_initialises_exactly_on_8_0_8_6_8_9
  (mem : Indeterminate) (t : Tensor) (w : World) :
  let major := vendor (calls w) qMajor in
  let minor := vendor (calls w ++ [(qMajor, major)]) qMinor in
  status major = 0 ->
  status minor = 0 ->
  let supported :=
    out1 major = 8
    /\ (out1 minor = 0 \/ out1 minor = 6 \/ out1 minor = 9) in
  let out := CusparseLt_new vendor mem t w in
  exists delta,
    calls (snd out) = calls w ++ delta
    /\ (supported <-> existsb is_init delta = true)
    /\ (supported <-> printed (snd out) = printed w)
    /\ forall this w',
         out = (Ok this, w') ->
         (supported <-> handle this = HandleInitialized).
Proof.
  intros major minor Hmajor Hminor supported out.
  subst major minor supported out. unfold qMajor, qMinor in *.
  unfold CusparseLt_new.
  destruct (constructor_body vendor _) as [r st1] eqn:Hrun.
  unfold constructor_body in Hrun.
  run vendor Hrun; cbn [status out1] in *; try congruence.
  all: injection Hrun as <- <-;
    cbn [fst snd self world calls printed handle set_handle set_type
         set_compute_type member_init];
    rewrite <- ?app_assoc; cbn [app]; eexists; (split; [reflexivity |]);
    cbn [existsb is_init fst orb];
    match goal with
    | E : unsupported_cc ?a ?b = _ |- _ =>
        pose proof (unsupported_cc_false a b) as Hs; rewrite E in Hs
    end.
  all: match type of Hs with
       | true = false <-> ?P =>
           assert (HP : ~ P) by (intros HP; apply Hs in HP; discriminate HP)
       | false = false <-> ?P => assert (HP : P) by (apply Hs; reflexivity)
       end; clear Hs.
  all: split; [| split; [| intros this w' Heq; inversion Heq; subst; cbn ]];
    split; intros; try reflexivity; try assumption; try contradiction;
    try discriminate.
  all: match goal with
       | H : ?l ++ [?x] = ?l |- _ =>
           rewrite <- (app_nil_r l) in H at 2;
           apply app_inv_head in H; discriminate H
       end.
Qed.

Lemma handle_compress h sparse_input tr :
  keeps (holds_handle h) (given_handle h) (compress vendor sparse_input tr)
    (fun _ => True).
Proof.
  unfold compress. walk.
  all: try (intros; split; [intros ? Hh; cbn in Hh;
                            first [discriminate Hh
                                  | injection Hh as <-; assumption]
                           | reflexivity]).
  all: unfold holds_handle; stores_ok.
Qed.

Lemma handle_helper h input dBias biasStride :
  keeps (holds_handle h) (given_handle h)
    (cusparselt_helper vendor weight_compressed input dBias biasStride)
    (fun _ => True).
Proof.
  unfold cusparselt_helper. walk.
  all: try (intros; split; [intros ? Hh; cbn in Hh;
                            first [discriminate Hh
                                  | injection Hh as <-; assumption]
                           | reflexivity]).
  all: unfold holds_handle; stores_ok.
Qed.

(** X2.  No method touches the handle: over any sequence of calls the
    handle stays what it was, every cuSPARSELt call is given that handle,
    and [cusparseLtInit] is not called again. *)
Theorem X2_methods_keep_the_handle (st : State) (cs : list Method) :
  let st' := session vendor weight_compressed cs st in
  handle (self st') = handle (self st)
  /\ exists delta,
       calls (world st') = calls (world st) ++ delta
       /\ Forall (given_handle (handle (self st))) delta.
Proof.
  apply (keeps_session vendor weight_compressed
           (holds_handle (handle (self st)))
           (given_handle (handle (self st)))
           (handle_compress _) (handle_helper _) cs st eq_refl).
Qed.

Lemma typed_compress ty ct sparse_input tr :
  keeps (typed ty ct) (described_as ty ct) (compress vendor sparse_input tr)
    (fun _ => True).
Proof.
  unfold compress. walk.
  all: try (intros; split; intros ? Hx; cbn in Hx;
            first [discriminate Hx
                  | injection Hx as <-;
                    match goal with H : typed _ _ _ |- _ => apply H end]).
  all: unfold typed; stores_ok.
Qed.

Lemma typed_helper ty ct input dBias biasStride :
  keeps (typed ty ct) (described_as ty ct)
    (cusparselt_helper vendor weight_compressed input dBias biasStride)
    (fun _ => True).
Proof.
  unfold cusparselt_helper. walk.
  all: try (intros; split; intros ? Hx; cbn in Hx;
            first [discriminate Hx
                  | injection Hx as <-;
                    match goal with H : typed _ _ _ |- _ => apply H end]).
  all: unfold typed; stores_ok.
Qed.

(** X3.  The type pair is fixed once the object exists: over any sequence
    of calls, whatever the dtypes of the tensors passed in, [type] and
    [compute_type] keep their values, every matrix descriptor (sparse, dense
    input, result) is initialised with that [type] and every matmul
    descriptor with that [compute_type]. *)
Theorem X3_descriptors_use_the_constructed_type_pair
  (st : State) (cs : list Method) :
  let st' := session vendor weight_compressed cs st in
  (type (self st') = type (self st)
   /\ compute_type (self st') = compute_type (self st))
  /\ exists delta,
       calls (world st') = calls (world st) ++ delta
       /\ Forall (described_as (type (self st)) (compute_type (self st)))
            delta.
Proof.
  apply (keeps_session vendor weight_compressed
           (typed (type (self st)) (compute_type (self st)))
           (described_as (type (self st)) (compute_type (self st)))
           (typed_compress _ _) (typed_helper _ _) cs st (conj eq_refl eq_refl)).
Qed.

Ltac null_stream :=
  intros; split;
  [ intros ? Hx; cbn in Hx;
    first [discriminate Hx
          | injection Hx as <-;
            match goal with H : standing _ |- _ => apply H end]
  | intros ? ? Hx; cbn in Hx;
    first [discriminate Hx
          | injection Hx as <- <-;
            match goal with
            | H : standing _ |- _ =>
                destruct H as (_ & _ & _ & ? & _ & ?); auto
            end] ].

Lemma streams_compress sparse_input tr :
  keeps standing on_null_stream (compress vendor sparse_input tr)
    (fun _ => True).
Proof.
  unfold compress. walk.
  all: try null_stream.
  all: unfold standing; stores_ok.
Qed.

Lemma streams_helper input dBias biasStride :
  keeps standing on_null_stream
    (cusparselt_helper vendor weight_compressed input dBias biasStride)
    (fun _ => True).
Proof.
  unfold cusparselt_helper. walk.
  all: try null_stream.
  all: unfold standing; stores_ok.
Qed.

(** X4.  On every object a client can hold, every compress call is given
    the null stream and every search and multiplication a null stream array
    of length 0: the members [stream], [streams] and [num_streams] are never
    assigned. *)
Theorem X4_vendor_kernels_run_on_the_null_stream
  (st : State) (cs : list Method) :
  reachable vendor weight_compressed st ->
  let st' := session vendor weight_compressed cs st in
  (stream (self st') = nullptr
   /\ streams (self st') = nullptr
   /\ num_streams (self st') = 0)
  /\ exists delta,
       calls (world st') = calls (world st) ++ delta
       /\ Forall on_null_stream delta.
Proof.
  intros Hreach st'. subst st'.
  assert (Hst : standing (self st)).
  { apply (reachable_inv vendor weight_compressed standing on_null_stream
             streams_compress streams_helper); auto.
    - unfold constructor_body. walk. all: try null_stream.
      all: unfold standing; stores_ok.
    - intros. unfold standing. cbn. tauto. }
  destruct (keeps_session vendor weight_compressed standing on_null_stream
              streams_compress streams_helper cs st Hst) as (Hst' & Hlog).
  destruct Hst' as (_ & _ & _ & ? & ? & ?). auto.
Qed.

(** X5.  [compress] assigns [opA] and [num_A_rows] before it asks anything
    of the vendor: when the descriptor initialisation fails, the method
    throws after that single call, and the object already carries the row
    count and the operation of the matrix that was not compressed. *)
Theorem X5_failed_compress_has_overwritten_rows_and_operation
  (st : State) (sparse_input : Tensor) (t : bool) (m k : Z) :
  sizes sparse_input = [m; k] ->
  let c :=
    cusparseLtStructuredDescriptorInit (handle (self st))
      (if t then k else m) (if t then m else k) (if t then m else k)
      (alignment (self st)) (type (self st)) CUSPARSE_ORDER_ROW
      CUSPARSELT_SPARSITY_50_PERCENT in
  let reply := vendor (calls (world st)) c in
  status reply <> 0 ->
  exists st',
    compress vendor sparse_input t st
    = (Raise (CusparseApiFailed (status reply)), st')
    /\ calls (world st') = calls (world st) ++ [(c, reply)]
    /\ num_A_rows (self st') = (if t then k else m)
    /\ opA (self st') = operation_for t.
Proof.
  intros Hsizes c reply Hfail. subst c reply.
  destruct (compress vendor sparse_input t st) as [r st'] eqn:Hrun.
  unfold compress, size in Hrun. rewrite Hsizes in Hrun.
  cbn [nth_error] in Hrun.
  run vendor Hrun; cbn [status] in *; try congruence.
  injection Hrun as <- <-. eexists. split; [reflexivity |].
  cbn [self world calls num_A_rows opA]. repeat split.
Qed.

Ltac not_negative H :=
  project H;
  match type of H with
  | context [?a <? 0] => destruct (a <? 0); [discriminate H |]
  end.

(** What a returning [cusparselt_helper] has done, call for call. *)
Lemma helper_returns input dBias biasStride k n st res st' :
  sizes input = [k; n] ->
  cusparselt_helper vendor weight_compressed input dBias biasStride st
  = (Ok res, st') ->
  let rows := num_A_rows (self st) in
  let out_desc :=
    Some (mkMatDescriptor rows n n (alignment (self st)) (type (self st))
            CUSPARSE_ORDER_ROW None) in
  sizes res = [rows; n]
  /\ exists delta rw rm rk r1 r2 r3 r4,
       calls (world st') = calls (world st) ++ delta
       /\ length delta = 14%nat
       /\ collect workspace_query delta = [(handle (self st), rw)]
       /\ collect malloc_size delta = [(out1 rw, rm)]
       /\ collect operands_of delta
          = [((data_ptr weight_compressed, data_ptr input, data_ptr res,
               data_ptr res, out1 rm), rk)]
       /\ d_workspace (self st') = out1 rm
       /\ collect res_layout delta
          = [((rows, n, n, CUSPARSE_ORDER_ROW), r1)]
       /\ collect output_descriptors delta = [((out_desc, out_desc), r2)]
       /\ collect sparse_side delta
          = [((opA (self st), sparse_input_descriptor (self st)), r2)]
       /\ collect bias_setting delta
          = [((CUSPARSELT_MATMUL_BIAS_POINTER, dBias), r3);
             ((CUSPARSELT_MATMUL_BIAS_STRIDE, biasStride), r4)]
       /\ map fst (skipn 11 delta)
          = [cusparseLtMatDescriptorDestroy DenseInputSlot;
             cusparseLtMatDescriptorDestroy ResSlot;
             cusparseLtMatmulPlanDestroy]
       /\ filter is_teardown (firstn 11 delta) = [].
Proof.
  intros Hsizes Hrun rows out_desc. subst rows out_desc.
  open_helper Hrun Hsizes.
  not_negative Hrun. not_negative Hrun.
  run vendor Hrun; try discriminate.
  all: conclude Hrun; (split; [reflexivity |]); do 8 eexists;
    (split; [reflexivity |]); repeat (split; [reflexivity |]); reflexivity.
Qed.

(** X6.  A multiply call that returns has asked the vendor for the workspace
    size once, allocated a workspace of exactly that size, and run one
    search or multiplication on: the data of the dense input as B, the data
    of the tensor it returns as both C and D, and that workspace; the
    address of the workspace stays in [d_workspace]. *)
Theorem X6_operands_and_workspace_of_a_returning_multiply
  (st : State) (input : Tensor) (dBias biasStride k n : Z) (res : Tensor)
  (st' : State) :
  sizes input = [k; n] ->
  cusparselt_helper vendor weight_compressed input dBias biasStride st
  = (Ok res, st') ->
  exists delta rw rm rk,
    calls (world st') = calls (world st) ++ delta
    /\ collect workspace_query delta = [(handle (self st), rw)]
    /\ collect malloc_size delta = [(out1 rw, rm)]
    /\ collect operands_of delta
       = [((data_ptr weight_compressed, data_ptr input, data_ptr res,
            data_ptr res, out1 rm), rk)]
    /\ d_workspace (self st') = out1 rm.
Proof.
  intros Hsizes Hrun.
  destruct (helper_returns input dBias biasStride k n st res st' Hsizes Hrun)
    as (_ & delta & rw & rm & rk & r1 & r2 & r3 & r4 & Hlog & _ & Hq & Hm
        & Ho & Hw & _).
  exists delta, rw, rm, rk. auto.
Qed.

Lemma bias_helper input dBias biasStride :
  keeps anything (sets_bias dBias biasStride)
    (cusparselt_helper vendor weight_compressed input dBias biasStride)
    (fun _ => True).
Proof.
  unfold cusparselt_helper. walk.
  all: try (intros ? ? ? Hx; cbn in Hx;
            first [discriminate Hx | injection Hx as <- <-; reflexivity]).
  all: intros; exact Logic.I.
Qed.

Lemma helper_bias input dBias biasStride k n st :
  sizes input = [k; n] ->
  let out :=
    cusparselt_helper vendor weight_compressed input dBias biasStride st in
  exists delta,
    calls (world (snd out)) = calls (world st) ++ delta
    /\ Forall (sets_bias dBias biasStride) delta
    /\ (forall res, fst out = Ok res ->
        map fst (collect bias_setting delta)
        = [(CUSPARSELT_MATMUL_BIAS_POINTER, dBias);
           (CUSPARSELT_MATMUL_BIAS_STRIDE, biasStride)]).
Proof.
  intros Hsizes out. subst out.
  destruct (bias_helper input dBias biasStride st Logic.I)
    as (_ & (delta & Hlog & Hall) & _).
  exists delta. split; [exact Hlog |]. split; [exact Hall |].
  intros res Hres.
  destruct (cusparselt_helper _ _ _ _ _ _) as [r st'] eqn:Hrun.
  cbn [fst snd] in *. subst r.
  destruct (helper_returns input dBias biasStride k n st res st' Hsizes Hrun)
    as (_ & delta' & rw & rm & rk & r1 & r2 & r3 & r4 & Hlog' & _ & _ & _ & _
        & _ & _ & _ & _ & Hbias & _).
  rewrite Hlog' in Hlog. apply app_inv_head in Hlog. subst delta'.
  rewrite Hbias. reflexivity.
Qed.

(** X7.  [cusparselt_mm] sets the bias pointer of every matmul descriptor to
    null, [cusparselt_addmm] sets it to the data of its bias tensor, and both
    set the bias stride to 0; a call that returns has set both attributes,
    the pointer first. *)
Theorem X7_bias_pointer_and_stride
  (st : State) (input bias : Tensor) (k n : Z) :
  sizes input = [k; n] ->
  (let out := cusparselt_mm vendor weight_compressed input st in
   exists delta,
     calls (world (snd out)) = calls (world st) ++ delta
     /\ Forall (sets_bias nullptr 0) delta
     /\ (forall res, fst out = Ok res ->
         map fst (collect bias_setting delta)
         = [(CUSPARSELT_MATMUL_BIAS_POINTER, nullptr);
            (CUSPARSELT_MATMUL_BIAS_STRIDE, 0)]))
  /\ (let out := cusparselt_addmm vendor weight_compressed input bias st in
      exists delta,
        calls (world (snd out)) = calls (world st) ++ delta
        /\ Forall (sets_bias (data_ptr bias) 0) delta
        /\ (forall res, fst out = Ok res ->
            map fst (collect bias_setting delta)
            = [(CUSPARSELT_MATMUL_BIAS_POINTER, data_ptr bias);
               (CUSPARSELT_MATMUL_BIAS_STRIDE, 0)])).
Proof.
  intros Hsizes. split.
  - apply (helper_bias input nullptr 0 k n st Hsizes).
  - apply (helper_bias input (data_ptr bias) 0 k n st Hsizes).
Qed.

(** X8.  A multiply call that returns has described the result to the vendor
    with the shape of the tensor it returns: the result descriptor has as
    many rows and columns as the returned tensor, the column count as
    leading dimension and row-major order, and the matmul descriptor is
    given that one descriptor for both C and D. *)
Theorem X8_result_descriptor_matches_returned_tensor
  (st : State) (input : Tensor) (dBias biasStride k n : Z) (res : Tensor)
  (st' : State) :
  sizes input = [k; n] ->
  cusparselt_helper vendor weight_compressed input dBias biasStride st
  = (Ok res, st') ->
  exists delta rows cols r1 r2,
    calls (world st') = calls (world st) ++ delta
    /\ sizes res = [rows; cols]
    /\ collect res_layout delta
       = [((rows, cols, cols, CUSPARSE_ORDER_ROW), r1)]
    /\ collect output_descriptors delta
       = [((Some (mkMatDescriptor rows cols cols (alignment (self st))
                    (type (self st)) CUSPARSE_ORDER_ROW None),
            Some (mkMatDescriptor rows cols cols (alignment (self st))
                    (type (self st)) CUSPARSE_ORDER_ROW None)), r2)].
Proof.
  intros Hsizes Hrun.
  destruct (helper_returns input dBias biasStride k n st res st' Hsizes Hrun)
    as (Hres & delta & rw & rm & rk & r1 & r2 & r3 & r4 & Hlog & _ & _ & _
        & _ & _ & Hlayout & Hout & _).
  exists delta, (num_A_rows (self st)), n, r1, r2. auto.
Qed.

Lemma compress_returns sparse_input (t : bool) (m k : Z) st st1 :
  sizes sparse_input = [m; k] ->
  compress vendor sparse_input t st = (Ok tt, st1) ->
  num_A_rows (self st1) = (if t then k else m)
  /\ opA (self st1) = operation_for t
  /\ sparse_input_descriptor (self st1)
     = Some (mkMatDescriptor (if t then k else m) (if t then m else k)
               (if t then m else k) (alignment (self st)) (type (self st))
               CUSPARSE_ORDER_ROW (Some CUSPARSELT_SPARSITY_50_PERCENT)).
Proof.
  intros Hsizes Hrun.
  unfold compress, size in Hrun. rewrite Hsizes in Hrun.
  cbn [nth_error] in Hrun.
  run vendor Hrun; try discriminate.
  conclude Hrun. repeat split.
Qed.

(** X9.  [compress] and multiply compose through the object: after a
    [compress] of an m x k matrix with flag t has returned, a multiply call
    on a dense input of any shape k' x n that returns yields a tensor of
    (t ? k : m) rows and n columns, and has given the matmul descriptor the
    operation and the sparse descriptor that [compress] stored.  The row
    count k' of the dense input is not compared with anything. *)
Theorem X9_multiply_uses_what_compress_stored
  (st st1 st2 : State) (sparse_input input : Tensor) (t : bool)
  (m k k' n dBias biasStride : Z) (res : Tensor) :
  sizes sparse_input = [m; k] ->
  compress vendor sparse_input t st = (Ok tt, st1) ->
  sizes input = [k'; n] ->
  cusparselt_helper vendor weight_compressed input dBias biasStride st1
  = (Ok res, st2) ->
  sizes res = [if t then k else m; n]
  /\ exists delta r,
       calls (world st2) = calls (world st1) ++ delta
       /\ collect sparse_side delta
          = [((operation_for t,
               Some (mkMatDescriptor (if t then k else m)
                       (if t then m else k) (if t then m else k)
                       (alignment (self st)) (type (self st))
                       CUSPARSE_ORDER_ROW
                       (Some CUSPARSELT_SPARSITY_50_PERCENT))), r)].
Proof.
  intros Hs1 Hrun1 Hs2 Hrun2.
  destruct (compress_returns sparse_input t m k st st1 Hs1 Hrun1)
    as (Hrows & Hop & Hdesc).
  destruct (helper_returns input dBias biasStride k' n st1 res st2 Hs2 Hrun2)
    as (Hres & delta & rw & rm & rk & r1 & r2 & r3 & r4 & Hlog & _ & _ & _
        & _ & _ & _ & _ & Hside & _).
  rewrite Hrows in Hres. rewrite Hop, Hdesc in Hside.
  split; [exact Hres |]. exists delta, r2. auto.
Qed.

Lemma new_object mem t w this w' :
  CusparseLt_new vendor mem t w = (Ok this, w') ->
  num_A_rows this = garbage_num_A_rows mem
  /\ opA this = garbage_opA mem
  /\ sparse_input_descriptor this = None.
Proof.
  intros Hnew. unfold CusparseLt_new in Hnew.
  destruct (constructor_body vendor _) as [r st1] eqn:Hrun.
  unfold constructor_body in Hrun.
  run vendor Hrun; injection Hrun as <- <-; inversion Hnew; subst;
    repeat split.
Qed.

(** X10.  Nothing guards a multiply call against an object on which
    [compress] has never run: such a call, when it returns, has given the
    matmul descriptor a sparse descriptor that was never initialised and the
    indeterminate [opA], and returns a tensor with the indeterminate
    [num_A_rows] as its row count. *)
Theorem X10_multiply_before_compress_uses_uninitialised_members
  (mem : Indeterminate) (t : Tensor) (w : World) (this : CusparseLt)
  (w' : World) (input : Tensor) (dBias biasStride k n : Z) (res : Tensor)
  (st' : State) :
  CusparseLt_new vendor mem t w = (Ok this, w') ->
  sizes input = [k; n] ->
  cusparselt_helper vendor weight_compressed input dBias biasStride
    (mkState this w')
  = (Ok res, st') ->
  sizes res = [garbage_num_A_rows mem; n]
  /\ exists delta r,
       calls (world st') = calls w' ++ delta
       /\ collect sparse_side delta = [((garbage_opA mem, None), r)].
Proof.
  intros Hnew Hsizes Hrun.
  destruct (new_object mem t w this w' Hnew) as (Hrows & Hop & Hdesc).
  destruct (helper_returns input dBias biasStride k n (mkState this w') res
              st' Hsizes Hrun)
    as (Hres & delta & rw & rm & rk & r1 & r2 & r3 & r4 & Hlog & _ & _ & _
        & _ & _ & _ & _ & Hside & _).
  cbn [self world] in *. rewrite Hrows in Hres. rewrite Hop, Hdesc in Hside.
  split; [exact Hres |]. exists delta, r2. auto.
Qed.

Ltac no_teardown_succeeded :=
  let Hok := fresh "Hok" in
  intros Hok; cbn [filter is_teardown fst] in *;
  repeat match goal with
         | H : Forall succeeded (_ :: _) |- _ =>
             inversion H; clear H; subst
         end;
  unfold succeeded in *; cbn [snd status] in *;
  first [reflexivity | congruence].

(** X11.  The teardown is the end of the happy path only.  A multiply call
    that returns has made 14 vendor calls, the last three being the
    destruction of the dense input descriptor, of the result descriptor and
    of the plan, and none before.  A multiply call that throws has either
    failed in one of these three calls or made none of them: what it had
    initialised is not destroyed. *)
Theorem X11_teardown_only_when_everything_succeeded
  (st : State) (input : Tensor) (dBias biasStride k n : Z) :
  sizes input = [k; n] ->
  let out :=
    cusparselt_helper vendor weight_compressed input dBias biasStride st in
  exists delta,
    calls (world (snd out)) = calls (world st) ++ delta
    /\ (forall res, fst out = Ok res ->
        length delta = 14%nat
        /\ map fst (skipn 11 delta)
           = [cusparseLtMatDescriptorDestroy DenseInputSlot;
              cusparseLtMatDescriptorDestroy ResSlot;
              cusparseLtMatmulPlanDestroy]
        /\ filter is_teardown (firstn 11 delta) = [])
    /\ (forall e, fst out = Raise e ->
        Forall succeeded (filter is_teardown delta) ->
        filter is_teardown delta = []).
Proof.
  intros Hsizes out. subst out.
  destruct (cusparselt_helper _ _ _ _ _ _) as [r st'] eqn:Hrun.
  open_helper Hrun Hsizes. project Hrun.
  destruct (num_A_rows (self st) <? 0).
  { injection Hrun as <- <-. exists []. rewrite app_nil_r.
    repeat split; try discriminate. }
  destruct (n <? 0).
  { injection Hrun as <- <-. exists []. rewrite app_nil_r.
    repeat split; try discriminate. }
  run vendor Hrun; conclude Hrun; eexists; (split; [reflexivity |]);
    (split; [intros res Hres; first [discriminate Hres | repeat split]
            | intros e He; first [discriminate He | no_teardown_succeeded]]).
Qed.

(** X12.  [compress] looks at nothing of its sparse input but the first two
    extents and the data address: two tensors that agree on these are
    treated alike, whatever their dtype, device, strides and further
    dimensions. *)
Theorem X12_compress_reads_only_two_extents_and_the_data_address
  (t1 t2 : Tensor) (tr : bool) (st : State) :
  nth_error (sizes t1) 0 = nth_error (sizes t2) 0 ->
  nth_error (sizes t1) 1 = nth_error (sizes t2) 1 ->
  data_ptr t1 = data_ptr t2 ->
  compress vendor t1 tr st = compress vendor t2 tr st.
Proof.
  intros H0 H1 Hptr. unfold compress, size. rewrite H0, H1, Hptr.
  reflexivity.
Qed.

(** X13.  A tensor with fewer than two dimensions makes [compress] and both
    multiply methods throw at once: no vendor call is made, no tensor is
    allocated and no member is assigned. *)
Theorem X13_fewer_than_two_dimensions_throws_at_once
  (t bias : Tensor) (tr : bool) (st : State) :
  (length (sizes t) < 2)%nat ->
  let e := DimensionOutOfRange (length (sizes t)) in
  compress vendor t tr st = (Raise e, st)
  /\ cusparselt_mm vendor weight_compressed t st = (Raise e, st)
  /\ cusparselt_addmm vendor weight_compressed t bias st = (Raise e, st).
Proof.
  intros Hlen e. subst e.
  unfold cusparselt_mm, cusparselt_addmm, cusparselt_helper, compress, size.
  destruct (sizes t) as [| a [| b l]]; cbn in *; try lia; repeat split.
Qed.

Lemma sparse_fixed_helper rows op desc input dBias biasStride :
  keeps (sparse_fixed rows op desc) (multiplies_with op desc)
    (cusparselt_helper vendor weight_compressed input dBias biasStride)
    (fun _ => True).
Proof.
  unfold cusparselt_helper. walk.
  all: try (intros ? ? Hx; cbn in Hx;
            first [discriminate Hx
                  | injection Hx as <-;
                    match goal with
                    | H : sparse_fixed _ _ _ _ |- _ =>
                        destruct H as (_ & -> & ->); reflexivity
                    end]).
  all: unfold sparse_fixed; stores_ok.
Qed.

(** X14.  The multiply methods never touch what [compress] stored: over any
    sequence of multiply calls, returning or throwing, [num_A_rows], [opA]
    and the sparse descriptor stay as they were, and every matmul
    descriptor is given that operation and that sparse descriptor. *)
Theorem X14_multiply_calls_keep_the_sparse_side
  (st : State) (cs : list Method) :
  forallb is_multiply cs = true ->
  let st' := session vendor weight_compressed cs st in
  (num_A_rows (self st') = num_A_rows (self st)
   /\ opA (self st') = opA (self st)
   /\ sparse_input_descriptor (self st') = sparse_input_descriptor (self st))
  /\ exists delta,
       calls (world st') = calls (world st) ++ delta
       /\ Forall (multiplies_with (opA (self st))
                    (sparse_input_descriptor (self st))) delta.
Proof.
  intros Hcs st'. subst st'.
  set (rows := num_A_rows (self st)). set (op := opA (self st)).
  set (desc := sparse_input_descriptor (self st)).
  assert (Hst : sparse_fixed rows op desc (self st)) by (repeat split).
  clearbody rows op desc. revert st Hst.
  induction cs as [| c rest IH]; intros st Hst; cbn [session].
  - split; [exact Hst | exists []; rewrite app_nil_r; auto].
  - cbn [forallb] in Hcs. apply andb_prop in Hcs. destruct Hcs as [Hc Hrest].
    assert (Hstep : keeps (sparse_fixed rows op desc)
                      (multiplies_with op desc)
                      (dispatch vendor weight_compressed c) (fun _ => True)).
    { destruct c; cbn [is_multiply] in Hc; try discriminate Hc;
        cbn [dispatch]; eapply keeps_forget, sparse_fixed_helper. }
    destruct (Hstep st Hst) as (Hst1 & (d1 & Hd1 & Hphi1) & _).
    destruct (IH Hrest _ Hst1) as (Hst2 & d2 & Hd2 & Hphi2).
    split; [exact Hst2 |].
    exists (d1 ++ d2). rewrite Hd2, Hd1, app_assoc. split; auto.
    apply Forall_app; auto.
Qed.

End Further.

(** * The further properties on concrete runs *)

Lemma X1_witness :
  status (vendor_on 8 6 (calls fresh_world) qMajor) = 0
  /\ status (vendor_on 8 6
               (calls fresh_world
                ++ [(qMajor, vendor_on 8 6 (calls fresh_world) qMajor)])
               qMinor) = 0
  /\ let out :=
       CusparseLt_new (vendor_on 8 6) no_garbage compressed_f16 fresh_world in
     exists delta,
       calls (snd out) = calls fresh_world ++ delta
       /\ (8 = 8 /\ (6 = 0 \/ 6 = 6 \/ 6 = 9) <-> existsb is_init delta = true)
       /\ (8 = 8 /\ (6 = 0 \/ 6 = 6 \/ 6 = 9)
           <-> printed (snd out) = printed fresh_world)
       /\ forall this w',
            out = (Ok this, w') ->
            (8 = 8 /\ (6 = 0 \/ 6 = 6 \/ 6 = 9)
             <-> handle this = HandleInitialized).
Proof.
  split; [reflexivity |]. split; [reflexivity |].
  apply (X1_constructor_initialises_exactly_on_8_0_8_6_8_9 (vendor_on 8 6)
           no_garbage compressed_f16 fresh_world eq_refl eq_refl).
Defined.

Lemma X4_witness :
  reachable (vendor_on 8 0) stray_tensor demo_new
  /\ let st' :=
       session (vendor_on 8 0) stray_tensor
         [call_compress weight_f16 false; call_cusparselt_mm dense_f16;
          call_cusparselt_mm dense_f16] demo_new in
     (stream (self st') = nullptr
      /\ streams (self st') = nullptr
      /\ num_streams (self st') = 0)
     /\ exists delta,
          calls (world st') = calls (world demo_new) ++ delta
          /\ Forall on_null_stream delta.
Proof.
  split; [exact demo_new_reachable |].
  apply (X4_vendor_kernels_run_on_the_null_stream (vendor_on 8 0)
           stray_tensor demo_new
           [call_compress weight_f16 false; call_cusparselt_mm dense_f16;
            call_cusparselt_mm dense_f16] demo_new_reachable).
Defined.

Lemma X5_witness :
  sizes weight_f16 = [64; 128]
  /\ status (vendor_failing_at 3 (calls (world demo_compress_fails))
               (cusparseLtStructuredDescriptorInit HandleInitialized 128 64
                  64 16 CUDA_R_16F CUSPARSE_ORDER_ROW
                  CUSPARSELT_SPARSITY_50_PERCENT)) <> 0
  /\ exists st',
       compress (vendor_failing_at 3) weight_f16 true demo_compress_fails
       = (Raise (CusparseApiFailed 7), st')
       /\ calls (world st')
          = calls (world demo_compress_fails)
            ++ [(cusparseLtStructuredDescriptorInit HandleInitialized 128 64
                   64 16 CUDA_R_16F CUSPARSE_ORDER_ROW
                   CUSPARSELT_SPARSITY_50_PERCENT, mkReply 7 0 0)]
       /\ num_A_rows (self st') = 128
       /\ opA (self st') = CUSPARSE_OPERATION_TRANSPOSE.
Proof.
  split; [reflexivity |].
  assert (Hfail : status (vendor_failing_at 3
                            (calls (world demo_compress_fails))
                            (cusparseLtStructuredDescriptorInit
                               HandleInitialized 128 64 64 16 CUDA_R_16F
                               CUSPARSE_ORDER_ROW
                               CUSPARSELT_SPARSITY_50_PERCENT)) <> 0)
    by (vm_compute; discriminate).
  split; [exact Hfail |].
  apply (X5_failed_compress_has_overwritten_rows_and_operation
           (vendor_failing_at 3) demo_compress_fails weight_f16 true 64 128
           eq_refl Hfail).
Defined.

Lemma demo_multiply_returns :
  cusparselt_helper (vendor_on 8 0) stray_tensor dense_f16 nullptr 0
    demo_compressed
  = (Ok (returned dense_f16
           (fst (cusparselt_mm (vendor_on 8 0) stray_tensor dense_f16
                   demo_compressed))),
     snd (cusparselt_mm (vendor_on 8 0) stray_tensor dense_f16
            demo_compressed)).
Proof. vm_compute. reflexivity. Defined.

Lemma X6_witness :
  sizes dense_f16 = [128; 32]
  /\ let out := cusparselt_mm (vendor_on 8 0) stray_tensor dense_f16
                  demo_compressed in
     let res := returned dense_f16 (fst out) in
     let st' := snd out in
     out = (Ok res, st')
     /\ exists delta rw rm rk,
          calls (world st') = calls (world demo_compressed) ++ delta
          /\ collect workspace_query delta = [(HandleInitialized, rw)]
          /\ collect malloc_size delta = [(out1 rw, rm)]
          /\ collect operands_of delta
             = [((3072, 512, data_ptr res, data_ptr res, out1 rm), rk)]
          /\ d_workspace (self st') = out1 rm.
Proof.
  split; [reflexivity |]. split; [exact demo_multiply_returns |].
  apply (X6_operands_and_workspace_of_a_returning_multiply (vendor_on 8 0)
           stray_tensor demo_compressed dense_f16 nullptr 0 128 32 _ _
           eq_refl demo_multiply_returns).
Defined.

Lemma X7_witness :
  sizes dense_f16 = [128; 32]
  /\ (let out := cusparselt_mm (vendor_on 8 0) stray_tensor dense_f16
                   demo_compressed in
      exists delta,
        calls (world (snd out)) = calls (world demo_compressed) ++ delta
        /\ Forall (sets_bias 0 0) delta
        /\ (forall res, fst out = Ok res ->
            map fst (collect bias_setting delta)
            = [(CUSPARSELT_MATMUL_BIAS_POINTER, 0);
               (CUSPARSELT_MATMUL_BIAS_STRIDE, 0)]))
  /\ (let out := cusparselt_addmm (vendor_on 8 0) stray_tensor dense_f16
                   bias_f16 demo_compressed in
      exists delta,
        calls (world (snd out)) = calls (world demo_compressed) ++ delta
        /\ Forall (sets_bias 256 0) delta
        /\ (forall res, fst out = Ok res ->
            map fst (collect bias_setting delta)
            = [(CUSPARSELT_MATMUL_BIAS_POINTER, 256);
               (CUSPARSELT_MATMUL_BIAS_STRIDE, 0)])).
Proof.
  split; [reflexivity |].
  apply (X7_bias_pointer_and_stride (vendor_on 8 0) stray_tensor
           demo_compressed dense_f16 bias_f16 128 32 eq_refl).
Defined.

Lemma X8_witness :
  sizes dense_f16 = [128; 32]
  /\ let out := cusparselt_mm (vendor_on 8 0) stray_tensor dense_f16
                  demo_compressed in
     let res := returned dense_f16 (fst out) in
     let st' := snd out in
     out = (Ok res, st')
     /\ exists delta rows cols r1 r2,
          calls (world st') = calls (world demo_compressed) ++ delta
          /\ sizes res = [rows; cols]
          /\ collect res_layout delta
             = [((rows, cols, cols, CUSPARSE_ORDER_ROW), r1)]
          /\ collect output_descriptors delta
             = [((Some (mkMatDescriptor rows cols cols 16 CUDA_R_16F
                          CUSPARSE_ORDER_ROW None),
                  Some (mkMatDescriptor rows cols cols 16 CUDA_R_16F
                          CUSPARSE_ORDER_ROW None)), r2)].
Proof.
  split; [reflexivity |]. split; [exact demo_multiply_returns |].
  apply (X8_result_descriptor_matches_returned_tensor (vendor_on 8 0)
           stray_tensor demo_compressed dense_f16 nullptr 0 128 32 _ _
           eq_refl demo_multiply_returns).
Defined.

Lemma demo_compress_returns :
  compress (vendor_on 8 0) weight_f16 false demo_new
  = (Ok tt, demo_compressed).
Proof. vm_compute. reflexivity. Defined.

Lemma demo_short_multiply_returns :
  cusparselt_helper (vendor_on 8 0) stray_tensor dense_short nullptr 0
    demo_compressed
  = (Ok (returned dense_short
           (fst (cusparselt_mm (vendor_on 8 0) stray_tensor dense_short
                   demo_compressed))),
     snd (cusparselt_mm (vendor_on 8 0) stray_tensor dense_short
            demo_compressed)).
Proof. vm_compute. reflexivity. Defined.

(** A 64 x 128 matrix is compressed and then multiplied with a 7 x 32
    input. *)
Lemma X9_witness :
  sizes weight_f16 = [64; 128]
  /\ compress (vendor_on 8 0) weight_f16 false demo_new
     = (Ok tt, demo_compressed)
  /\ sizes dense_short = [7; 32]
  /\ let out := cusparselt_mm (vendor_on 8 0) stray_tensor dense_short
                  demo_compressed in
     let res := returned dense_short (fst out) in
     let st2 := snd out in
     out = (Ok res, st2)
     /\ sizes res = [64; 32]
     /\ exists delta r,
          calls (world st2) = calls (world demo_compressed) ++ delta
          /\ collect sparse_side delta
             = [((CUSPARSE_OPERATION_NON_TRANSPOSE,
                  Some (mkMatDescriptor 64 128 128 16 CUDA_R_16F
                          CUSPARSE_ORDER_ROW
                          (Some CUSPARSELT_SPARSITY_50_PERCENT))), r)].
Proof.
  split; [reflexivity |]. split; [exact demo_compress_returns |].
  split; [reflexivity |]. split; [exact demo_short_multiply_returns |].
  apply (X9_multiply_uses_what_compress_stored (vendor_on 8 0) stray_tensor
           demo_new demo_compressed _ weight_f16 dense_short false 64 128 7
           32 nullptr 0 _ eq_refl demo_compress_returns eq_refl
           demo_short_multiply_returns).
Defined.

Lemma demo_early_multiply_returns :
  cusparselt_helper (vendor_on 8 0) stray_tensor dense_f16 nullptr 0
    (mkState (self demo_new) (world demo_new))
  = (Ok (returned dense_f16
           (fst (cusparselt_mm (vendor_on 8 0) stray_tensor dense_f16
                   demo_new))),
     snd (cusparselt_mm (vendor_on 8 0) stray_tensor dense_f16 demo_new)).
Proof. vm_compute. reflexivity. Defined.

Lemma X10_witness :
  CusparseLt_new (vendor_on 8 0) no_garbage compressed_f16 fresh_world
  = (Ok (self demo_new), world demo_new)
  /\ sizes dense_f16 = [128; 32]
  /\ let out := cusparselt_mm (vendor_on 8 0) stray_tensor dense_f16
                  demo_new in
     let res := returned dense_f16 (fst out) in
     let st' := snd out in
     cusparselt_helper (vendor_on 8 0) stray_tensor dense_f16 nullptr 0
       (mkState (self demo_new) (world demo_new))
     = (Ok res, st')
     /\ sizes res = [0; 32]
     /\ exists delta r,
          calls (world st') = calls (world demo_new) ++ delta
          /\ collect sparse_side delta
             = [((CUSPARSE_OPERATION_NON_TRANSPOSE, None), r)].
Proof.
  split; [reflexivity |]. split; [reflexivity |].
  split; [exact demo_early_multiply_returns |].
  apply (X10_multiply_before_compress_uses_uninitialised_members
           (vendor_on 8 0) stray_tensor no_garbage compressed_f16 fresh_world
           (self demo_new) (world demo_new) dense_f16 nullptr 0 128 32 _ _
           eq_refl eq_refl demo_early_multiply_returns).
Defined.

(** The search of the first multiply call fails: the call throws and the
    two descriptors and the plan it initialised are not destroyed. *)
Lemma X11_witness :
  sizes dense_f16 = [128; 32]
  /\ let out := cusparselt_helper (vendor_failing_at 16) stray_tensor
                  dense_f16 nullptr 0 demo_search_fails in
     exists delta,
       calls (world (snd out)) = calls (world demo_search_fails) ++ delta
       /\ (forall res, fst out = Ok res ->
           length delta = 14%nat
           /\ map fst (skipn 11 delta)
              = [cusparseLtMatDescriptorDestroy DenseInputSlot;
                 cusparseLtMatDescriptorDestroy ResSlot;
                 cusparseLtMatmulPlanDestroy]
           /\ filter is_teardown (firstn 11 delta) = [])
       /\ (forall e, fst out = Raise e ->
           Forall succeeded (filter is_teardown delta) ->
           filter is_teardown delta = []).
Proof.
  split; [reflexivity |].
  apply (X11_teardown_only_when_everything_succeeded (vendor_failing_at 16)
           stray_tensor demo_search_fails dense_f16 nullptr 0 128 32
           eq_refl).
Defined.

(** The run of [X11_witness], evaluated: the call throws at the search, its
    tenth vendor call, and has destroyed nothing. *)
Lemma demo_search_fails_leaks :
  let out := cusparselt_helper (vendor_failing_at 16) stray_tensor dense_f16
               nullptr 0 demo_search_fails in
  fst out = Raise (CusparseApiFailed 7)
  /\ length (calls (world (snd out)))
     = (length (calls (world demo_search_fails)) + 10)%nat
  /\ filter is_teardown (calls (world (snd out))) = []
  /\ dense_input_descriptor (self (snd out))
     = Some (mkMatDescriptor 128 32 32 16 CUDA_R_16F CUSPARSE_ORDER_ROW None).
Proof. vm_compute. repeat split. Qed.

Lemma X12_witness :
  nth_error (sizes weight_f16) 0 = nth_error (sizes weight_odd) 0
  /\ nth_error (sizes weight_f16) 1 = nth_error (sizes weight_odd) 1
  /\ data_ptr weight_f16 = data_ptr weight_odd
  /\ compress (vendor_on 8 0) weight_f16 false demo_new
     = compress (vendor_on 8 0) weight_odd false demo_new.
Proof.
  split; [reflexivity |]. split; [reflexivity |]. split; [reflexivity |].
  apply (X12_compress_reads_only_two_extents_and_the_data_address
           (vendor_on 8 0) weight_f16 weight_odd false demo_new eq_refl
           eq_refl eq_refl).
Defined.

Lemma X13_witness :
  (length (sizes vector_f16) < 2)%nat
  /\ compress (vendor_on 8 0) vector_f16 false demo_new
     = (Raise (DimensionOutOfRange 1), demo_new)
  /\ cusparselt_mm (vendor_on 8 0) stray_tensor vector_f16 demo_new
     = (Raise (DimensionOutOfRange 1), demo_new)
  /\ cusparselt_addmm (vendor_on 8 0) stray_tensor vector_f16 bias_f16
       demo_new
     = (Raise (DimensionOutOfRange 1), demo_new).
Proof.
  assert (Hlen : (length (sizes vector_f16) < 2)%nat) by (vm_compute; lia).
  split; [exact Hlen |].
  apply (X13_fewer_than_two_dimensions_throws_at_once (vendor_on 8 0)
           stray_tensor vector_f16 bias_f16 false demo_new Hlen).
Defined.

Lemma X14_witness :
  forallb is_multiply
    [call_cusparselt_mm dense_f16; call_cusparselt_addmm dense_f16 bias_f16;
     call_cusparselt_mm dense_short] = true
  /\ let st' :=
       session (vendor_on 8 0) stray_tensor
         [call_cusparselt_mm dense_f16;
          call_cusparselt_addmm dense_f16 bias_f16;
          call_cusparselt_mm dense_short] demo_compressed in
     (num_A_rows (self st') = 64
      /\ opA (self st') = CUSPARSE_OPERATION_NON_TRANSPOSE
      /\ sparse_input_descriptor (self st')
         = Some (mkMatDescriptor 64 128 128 16 CUDA_R_16F CUSPARSE_ORDER_ROW
                   (Some CUSPARSELT_SPARSITY_50_PERCENT)))
     /\ exists delta,
          calls (world st') = calls (world demo_compressed) ++ delta
          /\ Forall
               (multiplies_with CUSPARSE_OPERATION_NON_TRANSPOSE
                  (Some (mkMatDescriptor 64 128 128 16 CUDA_R_16F
                           CUSPARSE_ORDER_ROW
                           (Some CUSPARSELT_SPARSITY_50_PERCENT)))) delta.
Proof.
  split; [reflexivity |].
  apply (X14_multiply_calls_keep_the_sparse_side (vendor_on 8 0) stray_tensor
           demo_compressed
           [call_cusparselt_mm dense_f16;
            call_cusparselt_addmm dense_f16 bias_f16;
            call_cusparselt_mm dense_short] eq_refl).
Defined.
